(** * The thoughts workspace tooling of hlyr: hooks, directory links, permissions

    A shallow embedding of
    - [hlyr/src/utils/symlink.ts]   ([createDirectoryLink]),
    - [hlyr/src/utils/platform.ts]  ([isWindows], [removeReadOnly],
      [makeFileExecutable]),
    - [hlyr/src/utils/hooks.ts]     ([hookNeedsVersionUpdate], [installGitHook]),
    - the thoughts init command ([checkExistingSetup] and the link-creation
      step of [thoughtsInitCommand]).

    The TypeScript code is synchronous and effectful: it calls into Node's
    [fs], [child_process], [console] and [process].  Effects are written in a
    small state-and-exception monad; every call into Node is recorded in a
    call log, the way the project's own tests observe the code through
    mocked modules. *)

From Stdlib Require Import ZArith Ascii.
From stdpp Require Import gmap strings list.

Local Open Scope string_scope.
Local Open Scope list_scope.
Local Open Scope Z_scope.

(** ** JavaScript values the code observes *)

Module JS.

(** [s.includes(sub)]. *)
Fixpoint includes (s sub : string) : bool :=
  String.prefix sub s ||
  match s with
  | EmptyString => false
  | String _ s' => includes s' sub
  end.

(** A thrown value, as a [catch] clause sees it.  JavaScript lets any value
    be thrown:
    - an [Error] with its [message], a string;
    - a value that is not an [Error], kept as its [String(...)] conversion;
    - an [Error] whose [message] is [undefined];
    - a value that is not an [Error] and that [String(...)] cannot convert,
      such as [Object.create(null)], which has no [toString]. *)
Inductive thrown : Type :=
| JsError (message : string)
| JsValue (text : string)
| JsErrorNoMessage
| JsUnprintable.

(** The text of a thrown value, where it has one. *)
Definition textOf (error : thrown) : option string :=
  match error with
  | JsError message => Some message
  | JsValue text => Some text
  | JsErrorNoMessage => None
  | JsUnprintable => None
  end.

(** The engine's own [TypeError]: an [Error] with a string message. *)
Definition TypeError (message : string) : thrown := JsError message.

(** What a call into a Node module does: it returns or it throws. *)
Inductive result (A : Type) : Type :=
| Ok (a : A)
| Err (e : thrown).
Arguments Ok {A} a.
Arguments Err {A} e.

(** A call that returns, or that throws a value with a text.  The functions
    of Node's [fs] throw [Error]s with a string message; a mocked one may
    throw anything. *)
Definition readable {A} (r : result A) : Prop :=
  match r with
  | Ok _ => True
  | Err e => is_Some (textOf e)
  end.

(** How a piece of code completes: normally, by an exception that reaches
    its caller, or by [process.exit(code)], which no handler intercepts. *)
Inductive completion (A : Type) : Type :=
| Normal (a : A)
| Throws (e : thrown)
| Exits (code : Z).
Arguments Normal {A} a.
Arguments Throws {A} e.
Arguments Exits {A} code.

(** The file mode argument of [fs.chmodSync]: a string such as ['755'] or a
    number such as [0o666]. *)
Inductive Mode : Type :=
| ModeString (s : string)
| ModeNumber (n : N).

(** [fs.Dirent], as far as [removeReadOnly] reads it. *)
Record Dirent : Type := mkDirent {
  name : string;
  isDirectory : bool
}.

(** [fs.Stats], as far as [checkExistingSetup] reads it. *)
Record Stats : Type := mkStats {
  stIsDirectory : bool;
  stIsSymbolicLink : bool
}.

(** One recorded call into Node. *)
Inductive Call : Type :=
| SymlinkSync (target linkPath kind : string)
| ExecSync (command : string)
| ChmodSync (path : string) (mode : Mode)
| ExistsSync (path : string)
| ReaddirSync (path : string)
| LstatSync (path : string)
| ReadFileSync (path : string)
| WriteFileSync (path data : string)
| RenameSync (oldPath newPath : string)
| UnlinkSync (path : string)
| ConsoleError (text : string)
| ConsoleLog (text : string).

(** The state threaded through the code: the world outside the program and
    the log of calls made so far. *)
Record State (W : Type) : Type := mkState {
  world : W;
  calls : list Call
}.
Arguments mkState {W} world calls.
Arguments world {W} s.
Arguments calls {W} s.

Definition M (W A : Type) : Type := State W → completion A * State W.

Definition ret {W A} (a : A) : M W A := fun s => (Normal a, s).

Definition bind {W A B} (c : M W A) (k : A → M W B) : M W B :=
  fun s =>
    match c s with
    | (Normal a, s') => k a s'
    | (Throws e, s') => (Throws e, s')
    | (Exits code, s') => (Exits code, s')
    end.

(** [throw e] *)
Definition throw {W A} (e : thrown) : M W A := fun s => (Throws e, s).

(** [process.exit(code)] *)
Definition process_exit {W A} (code : Z) : M W A := fun s => (Exits code, s).

(** [try { c } catch (error) { handler error }].  The effects of [c] up to
    the exception stay. *)
Definition try_catch {W A} (c : M W A) (handler : thrown → M W A) : M W A :=
  fun s =>
    match c s with
    | (Throws e, s') => handler e s'
    | other => other
    end.

(** A call into Node: log it, let the world answer. *)
Definition call {W A} (what : Call) (behaviour : W → result A * W) : M W A :=
  fun s =>
    let (r, w') := behaviour (world s) in
    let s' := mkState w' (calls s ++ [what]) in
    match r with
    | Ok a => (Normal a, s')
    | Err e => (Throws e, s')
    end.

(** [console.error(text)] *)
Definition console_error {W} (text : string) : M W unit :=
  fun s => (Normal tt, mkState (world s) (calls s ++ [ConsoleError text])).

(** [console.log(text)] *)
Definition console_log {W} (text : string) : M W unit :=
  fun s => (Normal tt, mkState (world s) (calls s ++ [ConsoleLog text])).

(** [error instanceof Error ? error.message : String(error)]: a string, or
    [undefined] for an [Error] without message; the conversion of a value
    that cannot be converted throws. *)
Definition errorText {W} (error : thrown) : M W (option string) :=
  match error with
  | JsError message => ret (Some message)
  | JsErrorNoMessage => ret None
  | JsValue text => ret (Some text)
  | JsUnprintable => throw (TypeError "Cannot convert object to primitive value")
  end.

(** [errorMessage.includes(sub)]; reading the method off [undefined]
    throws. *)
Definition includesOf {W} (errorMessage : option string) (sub : string) : M W bool :=
  match errorMessage with
  | Some text => ret (includes text sub)
  | None => throw (TypeError "Cannot read properties of undefined (reading 'includes')")
  end.

(** [if (b) { c }] *)
Definition when {W} (b : bool) (c : M W unit) : M W unit :=
  if b then c else ret tt.

(** A computation that never ends the process. *)
Definition no_exit {W A} (c : M W A) : Prop :=
  ∀ s code s', c s ≠ (Exits code, s').

(** The Node runtime as the code sees it.  Every function of [fs] and
    [child_process] is an arbitrary, possibly failing, possibly stateful
    behaviour, as with a mocked module. *)
Record Node (W : Type) : Type := mkNode {
  process_platform : string;
  process_cwd : string;
  path_join : string → string → string;
  fs_symlinkSync : string → string → string → W → result unit * W;
  fs_existsSync : string → W → result bool * W;
  fs_lstatSync : string → W → result Stats * W;
  fs_readdirSync : string → W → result (list Dirent) * W;
  fs_chmodSync : string → Mode → W → result unit * W;
  child_process_execSync : string → W → result string * W
}.
Arguments process_platform {W} n.
Arguments process_cwd {W} n.
Arguments path_join {W} n _ _.
Arguments fs_symlinkSync {W} n _ _ _ _.
Arguments fs_existsSync {W} n _ _.
Arguments fs_lstatSync {W} n _ _.
Arguments fs_readdirSync {W} n _ _.
Arguments fs_chmodSync {W} n _ _ _.
Arguments child_process_execSync {W} n _ _.

End JS.

Import JS.

Notation "'let*' x ':=' c 'in' k" := (bind c (fun x => k))
  (at level 10, x name, c at level 100, k at level 200).
Notation "c ';;;' k" := (bind c (fun _ => k))
  (at level 100, k at level 200, right associativity).

(** ** symlink.ts *)

Module Symlink.

Inductive LinkType : Type := symlink | junction.

Record LinkResult : Type := mkLinkResult {
  success : bool;
  type : LinkType;
  message : option string
}.

Definition EPERM_message : string :=
  "Permission denied. Try running as administrator or check if the target directory exists.".

Section WithNode.
Context {W : Type} (node : Node W).

Definition symlinkSync (target linkPath kind : string) : M W unit :=
  call (SymlinkSync target linkPath kind) (fs_symlinkSync node target linkPath kind).

(** The [catch] clause of [createDirectoryLink].  In [isWin && ...] the right
    operand runs only on win32. *)
Definition describeFailure (error : thrown) : M W LinkResult :=
  let isWin := String.eqb (process_platform node) "win32" in
  let* errorMessage := errorText error in
  let* denied := if isWin then includesOf errorMessage "EPERM" else ret false in
  if denied then
    ret (mkLinkResult false junction (Some EPERM_message))
  else
    ret (mkLinkResult false (if isWin then junction else symlink) errorMessage).

Definition createDirectoryLink (target linkPath : string) : M W LinkResult :=
  let isWin := String.eqb (process_platform node) "win32" in
  try_catch
    (if isWin then
       symlinkSync target linkPath "junction" ;;;
       ret (mkLinkResult true junction None)
     else
       symlinkSync target linkPath "dir" ;;;
       ret (mkLinkResult true symlink None))
    describeFailure.

End WithNode.

(** The kind of link [createDirectoryLink] asks [fs.symlinkSync] for. *)
Definition requestedKind {W} (node : Node W) : string :=
  if String.eqb (process_platform node) "win32" then "junction" else "dir".

(** The [type] it reports. *)
Definition expectedType {W} (node : Node W) : LinkType :=
  if String.eqb (process_platform node) "win32" then junction else symlink.

(** The message it reports for a failure with the text [text]. *)
Definition failureMessage {W} (node : Node W) (text : string) : string :=
  if String.eqb (process_platform node) "win32" && includes text "EPERM"
  then EPERM_message else text.

End Symlink.

(** ** platform.ts *)

Module Platform.

(** The double quote of the shell command line. *)
Definition dquote : string := String (ascii_of_nat 34) EmptyString.

(** [for (const x of xs) { body x }] *)
Fixpoint for_of {W A} (xs : list A) (body : A → M W unit) : M W unit :=
  match xs with
  | [] => ret tt
  | x :: rest => body x ;;; for_of rest body
  end.

(** What the engine throws when the call stack is used up; an ordinary
    [Error] that [catch] clauses see. *)
Definition RangeError : thrown := JsError "Maximum call stack size exceeded".

Section WithNode.
Context {W : Type} (node : Node W).

Definition execSync (command : string) : M W string :=
  call (ExecSync command) (child_process_execSync node command).
Definition existsSync (path : string) : M W bool :=
  call (ExistsSync path) (fs_existsSync node path).
Definition readdirSync (path : string) : M W (list Dirent) :=
  call (ReaddirSync path) (fs_readdirSync node path).
Definition chmodSync (path : string) (mode : Mode) : M W unit :=
  call (ChmodSync path mode) (fs_chmodSync node path mode).

Definition isWindows : bool := String.eqb (process_platform node) "win32".

(** The body of the loop over the entries of [dir]; [recurse] is the
    enclosing arrow function.  [0o666] is 438. *)
Definition visitEntry (recurse : string → M W unit) (dir : string) (entry : Dirent)
  : M W unit :=
  let fullPath := path_join node dir (name entry) in
  try_catch
    (chmodSync fullPath (ModeNumber 438) ;;;
     when (isDirectory entry) (recurse fullPath))
    (fun _ => ret tt).

(** The inner arrow function of [removeReadOnly].  [stack] is the number
    of nested calls the engine still allows: the mocked [readdirSync]
    may describe a tree without bottom, and the call that no longer fits
    throws [RangeError]. *)
Fixpoint removeReadOnlyRecursive (stack : nat) (dir : string) : M W unit :=
  match stack with
  | O => throw RangeError
  | S stack' =>
      let* present := existsSync dir in
      if negb present then ret tt
      else
        let* entries := readdirSync dir in
        for_of entries (visitEntry (removeReadOnlyRecursive stack') dir)
  end.

Definition removeReadOnly (stack : nat) (dirPath : string) : M W unit :=
  if negb isWindows then
    try_catch
      (execSync ("chmod -R 755 " +:+ dquote +:+ dirPath +:+ dquote) ;;; ret tt)
      (fun _ => ret tt)
  else
    try_catch (removeReadOnlyRecursive stack dirPath) (fun _ => ret tt).

Definition makeFileExecutable (filePath : string) : M W unit :=
  if negb isWindows then
    try_catch (chmodSync filePath (ModeString "755")) (fun _ => ret tt)
  else ret tt.

End WithNode.

End Platform.

(** ** The thoughts init command *)

Module Init.

Import Symlink.

(** Modelled from the spec: the type [ThoughtsConfig] is imported from
    [thoughtsConfig.js]; these are the fields of the spec's GlobalConfig
    that the code below reads or that identify the backing repository. *)
Record ThoughtsConfig : Type := mkThoughtsConfig {
  thoughtsRepo : string;
  reposDir : string;
  globalDir : string;
  user : string
}.

(** The return type of [checkExistingSetup]; an optional field that the
    returned object literal leaves out is [None]. *)
Record SetupStatus : Type := mkSetupStatus {
  exists_ : bool;
  isValid : bool;
  isOldStructure : option bool;
  message : option string
}.

(** A template literal prints a missing optional string as [undefined]. *)
Definition template (o : option string) : string :=
  match o with
  | Some s => s
  | None => "undefined"
  end.

Section WithNode.
Context {W : Type} (node : Node W).

Definition existsSync (path : string) : M W bool :=
  call (ExistsSync path) (fs_existsSync node path).
Definition lstatSync (path : string) : M W Stats :=
  call (LstatSync path) (fs_lstatSync node path).

(** [fs.existsSync(p) && fs.lstatSync(p).isSymbolicLink()]; the right
    operand runs only when the left one is true. *)
Definition existsAsSymbolicLink (p : string) : M W bool :=
  let* present := existsSync p in
  if present then
    let* st := lstatSync p in ret (stIsSymbolicLink st)
  else ret false.

Definition checkExistingSetup (config : option ThoughtsConfig) : M W SetupStatus :=
  let thoughtsDir := path_join node (process_cwd node) "thoughts" in
  let* present := existsSync thoughtsDir in
  if negb present then ret (mkSetupStatus false false None None)
  else
    let* st := lstatSync thoughtsDir in
    if negb (stIsDirectory st) then
      ret (mkSetupStatus true false None
             (Some "thoughts exists but is not a directory"))
    else
      let localPath := path_join node thoughtsDir "local" in
      let* hasOldLocal := existsAsSymbolicLink localPath in
      if hasOldLocal then
        ret (mkSetupStatus true false (Some true)
               (Some "thoughts directory uses old structure (needs upgrade)"))
      else
        match config with
        | None =>
            ret (mkSetupStatus true false None
                   (Some "thoughts directory exists but configuration is missing"))
        | Some config =>
            let userPath := path_join node thoughtsDir (user config) in
            let sharedPath := path_join node thoughtsDir "shared" in
            let globalPath := path_join node thoughtsDir "global" in
            let* hasUser := existsAsSymbolicLink userPath in
            let* hasShared := existsAsSymbolicLink sharedPath in
            let* hasGlobal := existsAsSymbolicLink globalPath in
            if negb hasUser || negb hasShared || negb hasGlobal then
              ret (mkSetupStatus true false None
                     (Some "thoughts directory exists but symlinks are missing or broken"))
            else ret (mkSetupStatus true true None None)
        end.

(** The link-creation step of [thoughtsInitCommand] (from the comment
    "Direct links to user and shared directories" to the end of the check
    "if all links succeeded"), over the values the command has computed by
    then.  [chalk.red] only colours the text; the log keeps the text. *)
Definition createThoughtsLinks (repoTarget globalTarget thoughtsDir user : string)
  : M W (LinkResult * LinkResult * LinkResult) :=
  let* userLink :=
    createDirectoryLink node (path_join node repoTarget user)
                             (path_join node thoughtsDir user) in
  let* sharedLink :=
    createDirectoryLink node (path_join node repoTarget "shared")
                             (path_join node thoughtsDir "shared") in
  let* globalLink :=
    createDirectoryLink node globalTarget (path_join node thoughtsDir "global") in
  (if negb (success userLink) || negb (success sharedLink) || negb (success globalLink)
   then
     console_error "Error: Failed to create directory links" ;;;
     when (negb (success userLink))
       (console_error ("  User: " +:+ template (Symlink.message userLink))) ;;;
     when (negb (success sharedLink))
       (console_error ("  Shared: " +:+ template (Symlink.message sharedLink))) ;;;
     when (negb (success globalLink))
       (console_error ("  Global: " +:+ template (Symlink.message globalLink))) ;;;
     process_exit 1
   else ret tt) ;;;
  ret (userLink, sharedLink, globalLink).

(** In world [w], a read-only call answers [a] and leaves the world as it is. *)
Definition answers {A} (behaviour : W → result A * W) (w : W) (a : A) : Prop :=
  behaviour w = (Ok a, w).

(** [p] exists and is a directory, by [lstat]. *)
Definition isDirectoryAt (w : W) (p : string) : Prop :=
  answers (fs_existsSync node p) w true ∧
  ∃ st, answers (fs_lstatSync node p) w st ∧ stIsDirectory st = true.

(** [p] exists and is a link (a symbolic link or a junction), by [lstat]. *)
Definition isLinkAt (w : W) (p : string) : Prop :=
  answers (fs_existsSync node p) w true ∧
  ∃ st, answers (fs_lstatSync node p) w st ∧ stIsSymbolicLink st = true.

(** [p] is missing, or exists and is not a link. *)
Definition noLinkAt (w : W) (p : string) : Prop :=
  answers (fs_existsSync node p) w false ∨
  (answers (fs_existsSync node p) w true ∧
   ∃ st, answers (fs_lstatSync node p) w st ∧ stIsSymbolicLink st = false).

(** [p] is a link, or is not, as [b] says. *)
Definition linkIs (w : W) (p : string) (b : bool) : Prop :=
  if b then isLinkAt w p else noLinkAt w p.

End WithNode.

(** The console lines of the failure report: one per failed link. *)
Definition failureReport (userLink sharedLink globalLink : LinkResult) : list Call :=
  ConsoleError "Error: Failed to create directory links" ::
  (if success userLink then []
   else [ConsoleError ("  User: " +:+ template (Symlink.message userLink))]) ++
  (if success sharedLink then []
   else [ConsoleError ("  Shared: " +:+ template (Symlink.message sharedLink))]) ++
  (if success globalLink then []
   else [ConsoleError ("  Global: " +:+ template (Symlink.message globalLink))]).

End Init.

(** ** hooks.ts *)

Module Hooks.

(** *** Numbers, [parseInt] and the version pattern *)

(** A JavaScript number that [parseInt] can yield. *)
Inductive number : Type :=
| Finite (z : Z)
| Infinity
| NaN.

(** [a < b] on numbers; any comparison with [NaN] is false. *)
Definition lt (a b : number) : bool :=
  match a, b with
  | Finite x, Finite y => x <? y
  | Finite _, Infinity => true
  | _, _ => false
  end.

(** The number value of a non-negative mathematical integer: the nearest
    double, ties to the even significand, [Infinity] from 2^1024 on.
    Integers below 2^53 are kept as they are. *)
Definition toNumber (n : Z) : number :=
  if n <? 2 ^ 53 then Finite n
  else
    let e := Z.log2 n - 52 in
    let q := Z.shiftr n e in
    let r := n - Z.shiftl q e in
    let half := Z.shiftl 1 (e - 1) in
    let q' :=
      if r <? half then q
      else if half <? r then q + 1
      else if Z.even q then q else q + 1 in
    let m := Z.shiftl q' e in
    if 2 ^ 1024 <=? m then Infinity else Finite m.

(** [\d] *)
Definition isDigit (c : ascii) : bool :=
  ((48 <=? N_of_ascii c) && (N_of_ascii c <=? 57))%N.

(** The longest prefix of digits: what [\d+] consumes, and what [parseInt]
    reads of a string that starts with a digit. *)
Fixpoint takeDigits (s : string) : string :=
  match s with
  | String c s' => if isDigit c then String c (takeDigits s') else EmptyString
  | EmptyString => EmptyString
  end.

(** The integer that decimal digits spell, continuing from [acc]. *)
Fixpoint digitsValue (acc : Z) (s : string) : Z :=
  match s with
  | String c s' => digitsValue (10 * acc + (Z.of_N (N_of_ascii c) - 48)) s'
  | EmptyString => acc
  end.

(** [parseInt(s)] for the strings the code passes: no leading white space,
    sign or radix prefix is looked for, the leading decimal digits are read,
    and a string without any is [NaN].  The integer read is rounded as a
    whole; beyond twenty digits an engine may round the digits first. *)
Definition parseInt (s : string) : number :=
  match takeDigits s with
  | EmptyString => NaN
  | digits => toNumber (digitsValue 0 digits)
  end.

(** [s] with the prefix [p] removed, if [s] starts with [p]. *)
Fixpoint stripPrefix (p s : string) : option string :=
  match p, s with
  | EmptyString, _ => Some s
  | String a p', String b s' => if Ascii.eqb a b then stripPrefix p' s' else None
  | String _ _, EmptyString => None
  end.

(** [s.match(/Version: (\d+)/)?.[1]]: the digits of the leftmost place where
    the pattern matches, [None] for [undefined]. *)
Fixpoint matchVersion (s : string) : option string :=
  let here :=
    match stripPrefix "Version: " s with
    | Some rest =>
        match takeDigits rest with
        | EmptyString => None
        | digits => Some digits
        end
    | None => None
    end in
  match here with
  | Some digits => Some digits
  | None =>
      match s with
      | String _ s' => matchVersion s'
      | EmptyString => None
      end
  end.

(** [!v] for an optional string: [undefined] and the empty string are falsy. *)
Definition not_ (v : option string) : bool :=
  match v with
  | None => true
  | Some EmptyString => true
  | Some _ => false
  end.

(** [parseInt(v)] for an optional string; [parseInt(undefined)] is [NaN]. *)
Definition parseIntOf (v : option string) : number :=
  match v with
  | Some s => parseInt s
  | None => NaN
  end.

(** The product marker that tells the project's own hooks from foreign ones. *)
Definition marker : string := "HumanLayer thoughts".

(** *** The files of the hooks directory *)

Record File : Type := mkFile {
  content : string;
  mode : Mode
}.

(** The disk: the regular files by path, and whether the file system refuses
    mode changes (as one without permission bits does).  Directories are not
    tracked: the hooks directory is taken to exist and to be writable, which
    [setupGitHooks] ensures before it installs a hook, and no directory lies
    at a path that the code reads or writes as a file.  On a disk outside
    this model [fs.writeFileSync] throws where the directory is missing
    (ENOENT) and [fs.readFileSync] where the path is a directory (EISDIR);
    the statements below say nothing about such a disk. *)
Record Disk : Type := mkDisk {
  files : gmap string File;
  chmod_refused : bool
}.

Definition ENOENT (p : string) : thrown :=
  JsError ("ENOENT: no such file or directory, '" +:+ p +:+ "'").
Definition EPERM (p : string) : thrown :=
  JsError ("EPERM: operation not permitted, chmod '" +:+ p +:+ "'").

Definition existsSync (p : string) : M Disk bool :=
  call (ExistsSync p)
    (fun d => (Ok (bool_decide (is_Some (files d !! p))), d)).

Definition readFileSync (p : string) : M Disk string :=
  call (ReadFileSync p)
    (fun d => match files d !! p with
              | Some f => (Ok (content f), d)
              | None => (Err (ENOENT p), d)
              end).

(** A new file gets mode [0o644]; an existing one keeps its mode.  The
    directory of [p] exists: the write does not fail. *)
Definition writeFileSync (p data : string) : M Disk unit :=
  call (WriteFileSync p data)
    (fun d =>
       let m := match files d !! p with
                | Some f => mode f
                | None => ModeNumber 420
                end in
       (Ok tt, mkDisk (<[p := mkFile data m]> (files d)) (chmod_refused d))).

(** [rename] replaces whatever is at the new path. *)
Definition renameSync (oldPath newPath : string) : M Disk unit :=
  call (RenameSync oldPath newPath)
    (fun d => match files d !! oldPath with
              | Some f =>
                  (Ok tt, mkDisk (<[newPath := f]> (delete oldPath (files d)))
                                 (chmod_refused d))
              | None => (Err (ENOENT oldPath), d)
              end).

Definition unlinkSync (p : string) : M Disk unit :=
  call (UnlinkSync p)
    (fun d => match files d !! p with
              | Some _ => (Ok tt, mkDisk (delete p (files d)) (chmod_refused d))
              | None => (Err (ENOENT p), d)
              end).

Definition chmodSync (p : string) (m : Mode) : M Disk unit :=
  call (ChmodSync p m)
    (fun d => match files d !! p with
              | Some f =>
                  if chmod_refused d then (Err (EPERM p), d)
                  else (Ok tt, mkDisk (<[p := mkFile (content f) m]> (files d))
                                      (chmod_refused d))
              | None => (Err (ENOENT p), d)
              end).

(** *** The installer *)

Record InstallResult : Type := mkInstallResult { updated : bool }.

Section WithProcess.
(** [process.platform] and [path.join]. *)
Context (platform : string) (join : string → string → string).

Definition hookNeedsVersionUpdate (hookPath newContent : string) : M Disk bool :=
  let* present := existsSync hookPath in
  if negb present then ret true
  else
    let* existing := readFileSync hookPath in
    let existingVersion := matchVersion existing in
    let newVersion := matchVersion newContent in
    if not_ existingVersion || not_ newVersion then ret true
    else ret (lt (parseIntOf existingVersion) (parseIntOf newVersion)).

(** The value of [needsUpdate]: [a || b || c] runs [b] only when [a] is
    false, and [c] only when [b] is false too. *)
Definition needsUpdate (hookPath content : string) : M Disk bool :=
  let* present := existsSync hookPath in
  if negb present then ret true
  else
    let* existing := readFileSync hookPath in
    if negb (includes existing marker) then ret true
    else hookNeedsVersionUpdate hookPath content.

Definition installGitHook (hooksDir hookName content : string) : M Disk InstallResult :=
  let hookPath := join hooksDir hookName in
  let oldHookPath := hookPath +:+ ".old" in
  let* needs := needsUpdate hookPath content in
  if negb needs then ret (mkInstallResult false)
  else
    (let* present := existsSync hookPath in
     when present
       (let* existing := readFileSync hookPath in
        if negb (includes existing marker) then renameSync hookPath oldHookPath
        else unlinkSync hookPath)) ;;;
    writeFileSync hookPath content ;;;
    when (negb (String.eqb platform "win32"))
      (try_catch (chmodSync hookPath (ModeString "755")) (fun _ => ret tt)) ;;;
    ret (mkInstallResult true).

End WithProcess.

(** [generatePreCommitHook(version)]: the text of the pre-commit script. *)
Definition generatePreCommitHook (version : string) : string :=
"#!/usr/bin/env node
// HumanLayer thoughts protection - prevent committing thoughts directory
// Version: " +:+ version +:+ "

const { execSync } = require('child_process');

try {
  const staged = execSync('git diff --cached --name-only', {
    encoding: 'utf8',
    stdio: 'pipe'
  }).trim();

  if (staged.split(/\r?\n/).some(line => line.startsWith('thoughts/'))) {
    console.error('❌ Cannot commit thoughts/ to code repository');
    console.error('The thoughts directory should only exist in your separate thoughts repository.');
    execSync('git reset HEAD -- thoughts/');
    process.exit(1);
  }
} catch (error) {
  // Only exit on our check failing, not git command failures
  if (error.message && error.message.includes('Cannot commit')) {
    process.exit(1);
  }
}

// Call any existing pre-commit hook
const fs = require('fs');
const path = require('path');
const oldHook = path.join(__dirname, 'pre-commit.old');
if (fs.existsSync(oldHook)) {
  try {
    require('child_process').execFileSync(oldHook, process.argv.slice(2), {
      stdio: 'inherit'
    });
  } catch (err) {
    process.exit(err.status || 1);
  }
}
".

(** *** Views of the disk and of the hook used in the statements *)

(** The disk after [fs.writeFileSync(p, data)]. *)
Definition written (p data : string) (d : Disk) : Disk :=
  mkDisk (<[p := mkFile data match files d !! p with
                            | Some f => mode f
                            | None => ModeNumber 420
                            end]> (files d))
         (chmod_refused d).

(** The disk after the guarded [fs.chmodSync(p, '755')]. *)
Definition markedExecutable (platform p : string) (d : Disk) : Disk :=
  if String.eqb platform "win32" then d
  else if chmod_refused d then d
  else match files d !! p with
       | Some f => mkDisk (<[p := mkFile (content f) (ModeString "755")]> (files d))
                          (chmod_refused d)
       | None => d
       end.

(** The call that goes with it. *)
Definition chmodCalls (platform p : string) : list Call :=
  if String.eqb platform "win32" then [] else [ChmodSync p (ModeString "755")].

(** The disk after [fs.renameSync(p, q)] of an existing file [f]. *)
Definition renamed (p q : string) (f : File) (d : Disk) : Disk :=
  mkDisk (<[q := f]> (delete p (files d))) (chmod_refused d).

(** The disk after [fs.unlinkSync(p)]. *)
Definition unlinked (p : string) (d : Disk) : Disk :=
  mkDisk (delete p (files d)) (chmod_refused d).

(** Whether an own hook with text [existing] is older than [content], as
    [hookNeedsVersionUpdate] decides it. *)
Definition older (existing content : string) : bool :=
  if not_ (matchVersion existing) || not_ (matchVersion content) then true
  else lt (parseIntOf (matchVersion existing)) (parseIntOf (matchVersion content)).

(** The hook at [hookPath] is missing, foreign, or an own hook that
    [hookNeedsVersionUpdate] finds older than [content]. *)
Definition outdated (d : Disk) (hookPath content : string) : Prop :=
  match files d !! hookPath with
  | None => True
  | Some f =>
      includes (Hooks.content f) marker = false ∨
      older (Hooks.content f) content = true
  end.

End Hooks.

(** ** Mocked runtimes

    Stateless stand-ins for Node, in the manner of the mocks of the test
    suites: each call is answered by a fixed function of its arguments. *)

Module Mock.

(** [path.join] on two already normalised POSIX segments. *)
Definition posix_join (a b : string) : string := a +:+ "/" +:+ b.

Record Answers : Type := mkAnswers {
  platform : string;
  cwd : string;
  symlinkAnswer : string → string → string → result unit;
  existsAnswer : string → bool;
  lstatAnswer : string → result Stats;
  readdirAnswer : string → result (list Dirent);
  chmodAnswer : string → Mode → result unit;
  execAnswer : string → result string
}.

Definition node (a : Answers) : Node unit :=
  mkNode unit (platform a) (cwd a) posix_join
    (fun target linkPath kind w => (symlinkAnswer a target linkPath kind, w))
    (fun p w => (Ok (existsAnswer a p), w))
    (fun p w => (lstatAnswer a p, w))
    (fun p w => (readdirAnswer a p, w))
    (fun p m w => (chmodAnswer a p m, w))
    (fun c w => (execAnswer a c, w)).

Definition start : State unit := mkState tt [].

End Mock.

(** ** Scenarios

    The hosts and hooks directories of the examples. *)

Module Scenarios.

Import Symlink Hooks.

(** Mocks of the test suite: a Windows host on which link creation fails
    with EPERM, and a Linux host on which it fails with the same text. *)
Definition eperm : thrown := JsError "EPERM: operation not permitted, symlink".

Definition failing (platform : string) (e : thrown) : Mock.Answers :=
  Mock.mkAnswers platform "/repo"
    (fun _ _ _ => Err e) (fun _ => false) (fun p => Err (JsError p))
    (fun _ => Ok []) (fun _ _ => Ok tt) (fun _ => Ok EmptyString).

(** A locked directory between two files, on a Windows host. *)
Definition lockedTree : Mock.Answers :=
  Mock.mkAnswers "win32" "/repo"
    (fun _ _ _ => Ok tt)
    (fun _ => true)
    (fun p => Err (JsError p))
    (fun p => if String.eqb p "/t" then
                Ok [mkDirent "a.md" false; mkDirent "locked" true; mkDirent "z.md" false]
              else Ok [mkDirent "inner.md" false])
    (fun p _ => if String.eqb p "/t/locked" then Err (JsError "Access denied") else Ok tt)
    (fun _ => Ok EmptyString).

(** A repository left in the old structure: [thoughts/local] is a link and
    none of the three expected links is there. *)
Definition oldStructureTree : Mock.Answers :=
  Mock.mkAnswers "linux" "/repo"
    (fun _ _ _ => Ok tt)
    (fun p => String.eqb p "/repo/thoughts" || String.eqb p "/repo/thoughts/local")
    (fun p => if String.eqb p "/repo/thoughts" then Ok (mkStats true false)
              else if String.eqb p "/repo/thoughts/local" then Ok (mkStats false true)
              else Err (JsError "ENOENT: no such file or directory, lstat"))
    (fun _ => Ok []) (fun _ _ => Ok tt) (fun _ => Ok EmptyString).

(** The shared link cannot be created; the other two are. *)
Definition sharedLinkFails : Mock.Answers :=
  Mock.mkAnswers "linux" "/repo"
    (fun _ linkPath _ => if String.eqb linkPath "/repo/thoughts/shared"
                         then Err (JsError "EEXIST: file already exists, symlink")
                         else Ok tt)
    (fun _ => true) (fun p => Err (JsError p))
    (fun _ => Ok []) (fun _ _ => Ok tt) (fun _ => Ok EmptyString).

(** The hooks directory of the examples. *)
Definition emptyHooksDir : State Disk := mkState (mkDisk ∅ false) [].

(** The foreign hook of the spec's example. *)
Definition foreignHook : File :=
  mkFile ("#!/bin/bash" +:+ String (ascii_of_nat 10) "echo hi") (ModeString "755").

Definition foreignHooksDir : State Disk :=
  mkState (mkDisk {[ "/repo/.git/hooks/pre-commit" := foreignHook ]} false) [].

(** An own hook of version 2^53, and the disk that holds it. *)
Definition hugeVersionHooksDir : State Disk :=
  mkState (mkDisk {[ "/repo/.git/hooks/pre-commit" :=
                       mkFile (generatePreCommitHook "9007199254740992")
                              (ModeString "755") ]} false) [].

(** A marked text without a version line, and the disk that holds it
    already. *)
Definition unversioned : string := "// HumanLayer thoughts protection".

Definition unversionedHooksDir : State Disk :=
  mkState (mkDisk {[ "/repo/.git/hooks/pre-commit" :=
                       mkFile unversioned (ModeString "755") ]} false) [].

(** The same tree without the lock. *)
Definition unlockedTree : Mock.Answers :=
  Mock.mkAnswers "win32" "/repo"
    (fun _ _ _ => Ok tt)
    (fun _ => true)
    (fun p => Err (JsError p))
    (fun p => if String.eqb p "/t" then
                Ok [mkDirent "a.md" false; mkDirent "locked" true; mkDirent "z.md" false]
              else Ok [mkDirent "inner.md" false])
    (fun _ _ => Ok tt)
    (fun _ => Ok EmptyString).

(** A mocked tree in which every directory holds a directory. *)
Definition bottomlessTree : Mock.Answers :=
  Mock.mkAnswers "win32" "/repo"
    (fun _ _ _ => Ok tt)
    (fun _ => true)
    (fun p => Err (JsError p))
    (fun _ => Ok [mkDirent "d" true])
    (fun _ _ => Ok tt)
    (fun _ => Ok EmptyString).

End Scenarios.

(** ** Further code of the same files

    The functions of the cited files that the claims leave aside, and the
    views of them used in the statements about them. *)

(** *** What a computation adds to the call log *)

Module Logs.

(** Every run of [c] appends calls that satisfy [P], and nothing else. *)
Definition logs {W A} (P : Call → Prop) (c : M W A) : Prop :=
  ∀ s, ∃ added, calls (snd (c s)) = calls s ++ added ∧ Forall P added.

End Logs.

(** *** symlink.ts, the description of the link type *)

Module SymlinkInfo.

Definition getLinkTypeDescription {W} (node : Node W) : string :=
  if String.eqb (process_platform node) "win32"
  then "directory junctions (no admin required)"
  else "symbolic links".

End SymlinkInfo.

(** *** platform.ts, the walk of [removeReadOnly] over a tree that holds still *)

Module Walk.

(** The calls the walk on win32 is made of. *)
Definition walkCall (c : Call) : Prop :=
  match c with
  | ExistsSync _ | ReaddirSync _ => True
  | ChmodSync _ m => m = ModeNumber 438
  | _ => False
  end.

(** A file system whose answers do not change during the walk: [ex] tells
    what exists, [ls] what a directory lists (or how listing it fails), [ch]
    whether making a path writable succeeds. *)
Definition answersBy {W} (node : Node W)
    (ex : string → bool) (ls : string → result (list Dirent)) (ch : string → result unit)
  : Prop :=
  (∀ p w, fst (fs_existsSync node p w) = Ok (ex p)) ∧
  (∀ p w, fst (fs_readdirSync node p w) = ls p) ∧
  (∀ p w, fst (fs_chmodSync node p (ModeNumber 438) w) = ch p).

Section Tree.
Context (join : string → string → string).
Context (ex : string → bool) (ls : string → result (list Dirent)) (ch : string → result unit).

(** [within n dir p]: [p] is an entry at most [n] levels below [dir], every
    directory on the way to it existing, being listed, and having been made
    writable. *)
Inductive within : nat → string → string → Prop :=
| within_entry n dir entries e :
    ex dir = true → ls dir = Ok entries → In e entries →
    within (S n) dir (join dir (name e))
| within_deeper n dir entries e p :
    ex dir = true → ls dir = Ok entries → In e entries →
    isDirectory e = true → ch (join dir (name e)) = Ok tt →
    within n (join dir (name e)) p →
    within (S n) dir p.

(** The calls of the walk from [dir] with [stack] nested calls allowed. *)
Fixpoint walkTrace (stack : nat) (dir : string) : list Call :=
  match stack with
  | O => []
  | S stack' =>
      ExistsSync dir ::
      if ex dir then
        ReaddirSync dir ::
        match ls dir with
        | Ok entries =>
            flat_map
              (fun e =>
                 ChmodSync (join dir (name e)) (ModeNumber 438) ::
                 match ch (join dir (name e)) with
                 | Ok _ => if isDirectory e then walkTrace stack' (join dir (name e)) else []
                 | Err _ => []
                 end)
              entries
        | Err _ => []
        end
      else []
  end.

End Tree.

End Walk.

(** *** hooks.ts, the post-commit script and the installation step of the setup *)

Module HooksMore.

Import Hooks.

(** [generatePostCommitHook(version)]: the text of the post-commit script. *)
Definition generatePostCommitHook (version : string) : string :=
"#!/usr/bin/env node
// HumanLayer thoughts auto-sync
// Version: " +:+ version +:+ "

const fs = require('fs');
const { execSync } = require('child_process');

// Check if we're in a worktree
if (fs.existsSync('.git') && fs.statSync('.git').isFile()) {
  // Skip auto-sync in worktrees to avoid repository boundary confusion
  // See: https://linear.app/humanlayer/issue/ENG-1455
  process.exit(0);
}

// Get the commit message
const commitMsg = execSync('git log -1 --pretty=%B', { encoding: 'utf8' }).trim();

// Auto-sync thoughts after each commit (only in non-worktree repos)
const { spawn } = require('child_process');
spawn('humanlayer', ['thoughts', 'sync', '--message', `Auto-sync with commit: ${commitMsg}`], {
  detached: true,
  stdio: 'ignore'
}).unref();

// Call any existing post-commit hook
const path = require('path');
const oldHook = path.join(__dirname, 'post-commit.old');
if (fs.existsSync(oldHook)) {
  try {
    require('child_process').execFileSync(oldHook, process.argv.slice(2), {
      stdio: 'inherit'
    });
  } catch (err) {
    process.exit(err.status || 1);
  }
}
".

(** [HOOK_VERSION] of [setupGitHooks]. *)
Definition HOOK_VERSION : string := "4".

(** A text of digits only. *)
Fixpoint onlyDigits (s : string) : bool :=
  match s with
  | EmptyString => true
  | String c s' => isDigit c && onlyDigits s'
  end.

(** A text in which the character [c] does not occur. *)
Fixpoint lacks (c : ascii) (s : string) : bool :=
  match s with
  | EmptyString => true
  | String c' s' => negb (Ascii.eqb c c') && lacks c s'
  end.

(** Whether [installGitHook] finds the hook on disk [d] in need of an
    update: it is missing, foreign, or an own hook that is older. *)
Definition decides (d : Disk) (hookPath content : string) : bool :=
  match files d !! hookPath with
  | None => true
  | Some f => negb (includes (Hooks.content f) marker) || older (Hooks.content f) content
  end.

(** The disk an update leaves. *)
Definition installedDisk (platform hookPath content : string) (d : Disk) : Disk :=
  markedExecutable platform hookPath
    (written hookPath content
       match files d !! hookPath with
       | None => d
       | Some f =>
           if negb (includes (Hooks.content f) marker)
           then renamed hookPath (hookPath +:+ ".old") f d
           else unlinked hookPath d
       end).

(** The calls of one [installGitHook]. *)
Definition installCalls (platform hookPath content : string) (d : Disk) : list Call :=
  match files d !! hookPath with
  | None =>
      [ExistsSync hookPath; ExistsSync hookPath; WriteFileSync hookPath content]
      ++ chmodCalls platform hookPath
  | Some f =>
      if negb (includes (Hooks.content f) marker) then
        [ExistsSync hookPath; ReadFileSync hookPath;
         ExistsSync hookPath; ReadFileSync hookPath;
         RenameSync hookPath (hookPath +:+ ".old");
         WriteFileSync hookPath content] ++ chmodCalls platform hookPath
      else if older (Hooks.content f) content then
        [ExistsSync hookPath; ReadFileSync hookPath;
         ExistsSync hookPath; ReadFileSync hookPath;
         ExistsSync hookPath; ReadFileSync hookPath;
         UnlinkSync hookPath;
         WriteFileSync hookPath content] ++ chmodCalls platform hookPath
      else
        [ExistsSync hookPath; ReadFileSync hookPath;
         ExistsSync hookPath; ReadFileSync hookPath]
  end.

Section WithProcess.
Context (platform : string) (join : string → string → string).

(** The installation step of [setupGitHooks]: from [HOOK_VERSION] to the
    returned list, over the hooks directory that the function has found and
    made sure of before. *)
Definition installHooks (hooksDir : string) : M Disk (list string) :=
  let updated := [] in
  let preCommitContent := generatePreCommitHook HOOK_VERSION in
  let* pre := installGitHook platform join hooksDir "pre-commit" preCommitContent in
  let updated := if Hooks.updated pre then updated ++ ["pre-commit"] else updated in
  let postCommitContent := generatePostCommitHook HOOK_VERSION in
  let* post := installGitHook platform join hooksDir "post-commit" postCommitContent in
  let updated := if Hooks.updated post then updated ++ ["post-commit"] else updated in
  ret updated.

End WithProcess.

End HooksMore.

(** *** The thoughts init command, further *)

Module InitMore.

Import Hooks.

(** [[a-zA-Z0-9_-]].  A string is taken as the sequence of its code units. *)
Definition isNameChar (c : ascii) : bool :=
  let n := N_of_ascii c in
  ((97 <=? n) && (n <=? 122) || (65 <=? n) && (n <=? 90) ||
   (48 <=? n) && (n <=? 57) || (n =? 95) || (n =? 45))%N.

(** [name.replace(/[^a-zA-Z0-9_-]/g, '_')] *)
Fixpoint sanitizeDirectoryName (name : string) : string :=
  match name with
  | EmptyString => EmptyString
  | String c rest =>
      String (if isNameChar c then c else "_"%char) (sanitizeDirectoryName rest)
  end.

(** Every character of [s] satisfies [p]. *)
Fixpoint allChars (p : ascii → bool) (s : string) : bool :=
  match s with
  | EmptyString => true
  | String c rest => p c && allChars p rest
  end.

Definition newline : ascii := ascii_of_nat 10.

(** [s.split('\n')]: never empty; the empty string gives one empty piece. *)
Fixpoint split (s : string) : list string :=
  match s with
  | EmptyString => [EmptyString]
  | String c rest =>
      if Ascii.eqb c newline then EmptyString :: split rest
      else match split rest with
           | piece :: pieces => String c piece :: pieces
           | [] => [String c EmptyString]
           end
  end.

(** [lines.join('\n')] *)
Fixpoint joinLines (lines : list string) : string :=
  match lines with
  | [] => EmptyString
  | [line] => line
  | line :: rest => line +:+ String newline (joinLines rest)
  end.

(** [Boolean(s)] for a string: the empty string is falsy. *)
Definition truthy (s : string) : bool :=
  match s with
  | EmptyString => false
  | String _ _ => true
  end.

(** [lines.includes(entry)] *)
Definition listIncludes (lines : list string) (entry : string) : bool :=
  existsb (String.eqb entry) lines.

(** The loop of [updateGitIgnore] over the entries, on the three arrays
    [lines], [added] and [skipped]. *)
Fixpoint addEntries (entries : list string)
    (arrays : list string * list string * list string)
  : list string * list string * list string :=
  match entries with
  | [] => arrays
  | entry :: rest =>
      let '(lines, added, skipped) := arrays in
      if negb (listIncludes lines entry)
      then addEntries rest (lines ++ [entry], added ++ [entry], skipped)
      else addEntries rest (lines, added, skipped ++ [entry])
  end.

(** The object that [updateGitIgnore] returns. *)
Record Update : Type := mkUpdate {
  added : list string;
  skipped : list string
}.

Section WithLibrary.
(** [String.prototype.trim] and [path.join]. *)
Context (trim : string → string) (join : string → string → string).

(** The lines read from the text of the file. *)
Definition readLines (content : string) : list string :=
  List.filter truthy (map trim (split content)).

Definition updateGitIgnore (repoPath : string) (entries : list string)
  : M Disk Update :=
  let gitignorePath := join repoPath ".gitignore" in
  let* present := existsSync gitignorePath in
  let* content :=
    if present then readFileSync gitignorePath else ret EmptyString in
  let '(lines, added, skipped) := addEntries entries (readLines content, [], []) in
  (if (0 <? length added)%nat then
     let newContent := joinLines lines +:+ String newline EmptyString in
     writeFileSync gitignorePath newContent
   else ret tt) ;;;
  ret (mkUpdate added skipped).

(** The lines that the file at [path] holds on disk [d]; none if it is
    missing. *)
Definition linesOnDisk (d : Disk) (path : string) : list string :=
  readLines match files d !! path with
            | Some f => Hooks.content f
            | None => EmptyString
            end.

(** What the theorems ask of [trim]: trimming twice is trimming once, the
    empty string stays empty, and no line break appears by trimming. *)
Definition trimLaws : Prop :=
  (∀ s, trim (trim s) = trim s) ∧
  trim EmptyString = EmptyString ∧
  (∀ s, HooksMore.lacks newline s = true → HooksMore.lacks newline (trim s) = true).

(** A line as [readLines] yields it. *)
Definition clean (line : string) : Prop :=
  trim line = line ∧ truthy line = true ∧ HooksMore.lacks newline line = true.

(** An entry that is read back as it is written: trimmed, not empty, on one
    line. *)
Definition plainEntry (entry : string) : Prop :=
  trim entry = entry ∧ entry ≠ EmptyString ∧ HooksMore.lacks newline entry = true.

End WithLibrary.

(** A value of [config.repoMappings]: the name of a directory, or an object
    with the name and a profile. *)
Inductive Mapping : Type :=
| MappingName (repo : string)
| MappingWithProfile (repo profile : string).

(** [!mappedName]: [undefined] and the empty string are falsy, every
    object is truthy. *)
Definition unmapped (mappedName : option Mapping) : bool :=
  match mappedName with
  | None => true
  | Some (MappingName EmptyString) => true
  | Some _ => false
  end.

(** The choice of the thoughts directory in [thoughtsInitCommand]: from
    [let mappedName = config.repoMappings[currentRepo]] to the end of
    [if (options.directory) ... else ...], giving the value of [mappedName]
    there.  [mappedName] is the mapping found in the configuration,
    [directory] the option [--directory], [existingRepos] the directories
    found in the thoughts repository.  In [if (options.directory)] a missing
    option and the empty string are falsy.  [interactive] stands for the
    interactive branch, which asks the user and comes back with a name.
    [chalk] only colours the text. *)
Definition resolveMappedName {W} (thoughtsRepo reposDir : string)
    (existingRepos : list string) (mappedName : option Mapping)
    (directory : option string) (interactive : M W string)
  : M W (option Mapping) :=
  if unmapped mappedName then
    match directory with
    | Some (String _ _ as given) =>
        let sanitizedDir := sanitizeDirectoryName given in
        when (negb (listIncludes existingRepos sanitizedDir))
          (console_error ("Error: Directory " +:+ Platform.dquote +:+ sanitizedDir
                          +:+ Platform.dquote +:+ " not found in thoughts repository.") ;;;
           console_error
             "In non-interactive mode (--directory), you must specify a directory" ;;;
           console_error "name that already exists in the thoughts repository." ;;;
           console_error EmptyString ;;;
           console_error "Available directories:" ;;;
           Platform.for_of existingRepos (fun repo => console_error ("  - " +:+ repo)) ;;;
           process_exit 1) ;;;
        let mappedName := sanitizedDir in
        console_log ("✓ Using existing: " +:+ thoughtsRepo +:+ "/" +:+ reposDir
                     +:+ "/" +:+ mappedName) ;;;
        ret (Some (MappingName mappedName))
    | _ =>
        let* mappedName := interactive in
        ret (Some (MappingName mappedName))
    end
  else ret mappedName.

(** The calls by which [checkExistingSetup] looks at the disk. *)
Definition readCall (c : Call) : Prop :=
  match c with
  | ExistsSync _ | LstatSync _ => True
  | _ => False
  end.

(** White space of the ASCII range. *)
Definition isSpace (c : ascii) : bool :=
  let n := N_of_ascii c in ((9 <=? n) && (n <=? 13) || (n =? 32))%N.

Fixpoint trimStart (s : string) : string :=
  match s with
  | EmptyString => EmptyString
  | String c rest => if isSpace c then trimStart rest else s
  end.

Fixpoint trimEnd (s : string) : string :=
  match s with
  | EmptyString => EmptyString
  | String c rest =>
      match trimEnd rest with
      | EmptyString => if isSpace c then EmptyString else String c EmptyString
      | kept => String c kept
      end
  end.

(** [trim] on text whose white space is ASCII. *)
Definition asciiTrim (s : string) : string := trimEnd (trimStart s).

(** The entries that the command passes. *)
Definition gitignoreEntries : list string :=
  [".claude/agents"; ".claude/commands"; "hack/spec_metadata.sh"].

End InitMore.

(** *** Further scenarios *)

Module MoreScenarios.

Import Hooks.

(** An empty hooks directory on a file system that refuses mode changes. *)
Definition refusingHooksDir : State Disk := mkState (mkDisk ∅ true) [].

(** A hooks directory that holds the pre-commit hook of version 4. *)
Definition newerHooksDir : State Disk :=
  mkState (mkDisk {[ "/repo/.git/hooks/pre-commit" :=
                       mkFile (generatePreCommitHook "4") (ModeString "755") ]} false) [].

(** A repository without a thoughts directory. *)
Definition noThoughts : Mock.Answers :=
  Mock.mkAnswers "linux" "/repo"
    (fun _ _ _ => Ok tt)
    (fun _ => false)
    (fun _ => Err (JsError "ENOENT: no such file or directory, lstat"))
    (fun _ => Ok []) (fun _ _ => Ok tt) (fun _ => Ok EmptyString).

(** A repository with an empty thoughts directory. *)
Definition bareThoughts : Mock.Answers :=
  Mock.mkAnswers "linux" "/repo"
    (fun _ _ _ => Ok tt)
    (fun p => String.eqb p "/repo/thoughts")
    (fun p => if String.eqb p "/repo/thoughts" then Ok (mkStats true false)
              else Err (JsError "ENOENT: no such file or directory, lstat"))
    (fun _ => Ok []) (fun _ _ => Ok tt) (fun _ => Ok EmptyString).

End MoreScenarios.

(** * Properties *)

(** ** The monad *)

Module MonadFacts.

Lemma no_exit_ret {W A} (a : A) : no_exit (@ret W A a).
Proof. intros s code s'. unfold ret. congruence. Qed.

Lemma no_exit_throw {W A} (e : thrown) : no_exit (@throw W A e).
Proof. intros s code s'. unfold throw. congruence. Qed.

Lemma no_exit_call {W A} what (behaviour : W → result A * W) :
  no_exit (call what behaviour).
Proof.
  intros s code s'. unfold call.
  destruct (behaviour (world s)) as [[a|e] w']; congruence.
Qed.

Lemma no_exit_bind {W A B} (c : M W A) (k : A → M W B) :
  no_exit c → (∀ a, no_exit (k a)) → no_exit (bind c k).
Proof.
  intros Hc Hk s code s'. unfold bind.
  destruct (c s) as [[a|e|code'] s1] eqn:E.
  - apply Hk.
  - congruence.
  - exfalso. exact (Hc _ _ _ E).
Qed.

Lemma no_exit_try_catch {W A} (c : M W A) (h : thrown → M W A) :
  no_exit c → (∀ e, no_exit (h e)) → no_exit (try_catch c h).
Proof.
  intros Hc Hh s code s'. unfold try_catch.
  destruct (c s) as [[a|e|code'] s1] eqn:E.
  - congruence.
  - apply Hh.
  - exfalso. exact (Hc _ _ _ E).
Qed.

Lemma no_exit_when {W} (b : bool) (c : M W unit) :
  no_exit c → no_exit (when b c).
Proof. intros Hc. destruct b; simpl; [exact Hc | apply no_exit_ret]. Qed.

(** [try { c } catch { }] completes normally whenever [c] cannot end the
    process. *)
Lemma try_catch_swallows {W} (c : M W unit) (s : State W) :
  no_exit c → ∃ s', try_catch c (fun _ => ret tt) s = (Normal tt, s').
Proof.
  intros Hc. unfold try_catch.
  destruct (c s) as [[[]|e|code] s1] eqn:E.
  - eauto.
  - unfold ret. eauto.
  - exfalso. exact (Hc _ _ _ E).
Qed.

End MonadFacts.

(** ** The call log *)

Module LogFacts.

Import Logs MonadFacts.

Lemma logs_ret {W A} (P : Call → Prop) (a : A) : logs P (@ret W A a).
Proof. intros s. exists []. simpl. by rewrite app_nil_r. Qed.

Lemma logs_throw {W A} (P : Call → Prop) (e : thrown) : logs P (@throw W A e).
Proof. intros s. exists []. simpl. by rewrite app_nil_r. Qed.

Lemma logs_call {W A} (P : Call → Prop) what (behaviour : W → result A * W) :
  P what → logs P (call what behaviour).
Proof.
  intros HP s. exists [what]. unfold call.
  destruct (behaviour (world s)) as [[a|e] w']; simpl; split; auto.
Qed.

Lemma logs_bind {W A B} (P : Call → Prop) (c : M W A) (k : A → M W B) :
  logs P c → (∀ a, logs P (k a)) → logs P (bind c k).
Proof.
  intros Hc Hk s. unfold bind. destruct (Hc s) as (added & Hcalls & HP).
  destruct (c s) as [[a|e|code] s1]; simpl in *; [|eauto..].
  destruct (Hk a s1) as (added' & Hcalls' & HP').
  exists (added ++ added'). rewrite Hcalls', Hcalls, app_assoc. split; [done|].
  by apply Forall_app.
Qed.

Lemma logs_try_catch {W A} (P : Call → Prop) (c : M W A) (h : thrown → M W A) :
  logs P c → (∀ e, logs P (h e)) → logs P (try_catch c h).
Proof.
  intros Hc Hh s. unfold try_catch. destruct (Hc s) as (added & Hcalls & HP).
  destruct (c s) as [[a|e|code] s1]; simpl in *; [eauto| |eauto].
  destruct (Hh e s1) as (added' & Hcalls' & HP').
  exists (added ++ added'). rewrite Hcalls', Hcalls, app_assoc. split; [done|].
  by apply Forall_app.
Qed.

Lemma logs_when {W} (P : Call → Prop) (b : bool) (c : M W unit) :
  logs P c → logs P (when b c).
Proof. intros Hc. destruct b; simpl; [done | apply logs_ret]. Qed.

Lemma logs_for_of {W A} (P : Call → Prop) (xs : list A) (body : A → M W unit) :
  (∀ x, logs P (body x)) → logs P (Platform.for_of xs body).
Proof.
  intros Hbody. induction xs as [|x rest IH]; simpl.
  - apply logs_ret.
  - apply logs_bind; [apply Hbody | intros _; exact IH].
Qed.

(** What the empty handler leaves: the state the guarded code reached. *)
Lemma try_catch_swallow_state {W} (c : M W unit) (s : State W) :
  snd (try_catch c (fun _ => ret tt) s) = snd (c s).
Proof. unfold try_catch. by destruct (c s) as [[[]|e|code] s1]. Qed.

End LogFacts.

(** ** symlink.ts *)

Module SymlinkSpec.

Import Symlink Scenarios MonadFacts.

Lemma platform_eqb_win32 {W} (node : Node W) :
  String.eqb (process_platform node) "win32" = true ↔ process_platform node = "win32".
Proof. apply String.eqb_eq. Qed.

(** The [catch] clause on a thrown value that has a text. *)
Lemma describeFailure_text {W} (node : Node W) (e : thrown) (text : string)
    (s : State W) :
  textOf e = Some text →
  describeFailure node e s =
  (Normal (mkLinkResult false (expectedType node) (Some (failureMessage node text))), s).
Proof.
  intros Htext. unfold describeFailure, expectedType, failureMessage.
  destruct e as [m|t| |]; try discriminate; injection Htext as ->;
    unfold bind, errorText, includesOf, ret;
    destruct (String.eqb (process_platform node) "win32"); simpl;
    try reflexivity; by destruct (includes text "EPERM").
Qed.

(** One run of [createDirectoryLink]: a single call of [fs.symlinkSync];
    what it throws goes to the [catch] clause. *)
Lemma createDirectoryLink_run {W} (node : Node W) target linkPath (s : State W) :
  createDirectoryLink node target linkPath s =
  match fst (fs_symlinkSync node target linkPath (requestedKind node) (world s)) with
  | Ok _ =>
      (Normal (mkLinkResult true (expectedType node) None),
       mkState (snd (fs_symlinkSync node target linkPath (requestedKind node) (world s)))
               (calls s ++ [SymlinkSync target linkPath (requestedKind node)]))
  | Err e =>
      describeFailure node e
        (mkState (snd (fs_symlinkSync node target linkPath (requestedKind node) (world s)))
                 (calls s ++ [SymlinkSync target linkPath (requestedKind node)]))
  end.
Proof.
  unfold createDirectoryLink, requestedKind, expectedType,
    try_catch, bind, symlinkSync, call, ret.
  destruct (String.eqb (process_platform node) "win32"); simpl.
  - by destruct (fs_symlinkSync node target linkPath "junction" (world s)) as [[[]|e] w'].
  - by destruct (fs_symlinkSync node target linkPath "dir" (world s)) as [[[]|e] w'].
Qed.

(** The [catch] clause makes no call and leaves the world as it is. *)
Lemma describeFailure_state {W} (node : Node W) (e : thrown) (s : State W) :
  snd (describeFailure node e s) = s.
Proof.
  unfold describeFailure, bind, errorText, includesOf, ret, throw.
  destruct e as [m|t| |]; destruct (String.eqb (process_platform node) "win32"); simpl;
    try reflexivity.
  - by destruct (includes m "EPERM").
  - by destruct (includes t "EPERM").
Qed.

(** The [type] of a result is the one of the platform. *)
Lemma describeFailure_type {W} (node : Node W) (e : thrown) (s s' : State W) r :
  describeFailure node e s = (Normal r, s') → type r = expectedType node.
Proof.
  unfold describeFailure, expectedType, bind, errorText, includesOf, ret, throw.
  destruct e as [m|t| |]; destruct (String.eqb (process_platform node) "win32"); simpl;
    try (by intros [= <- _]); try discriminate.
  - destruct (includes m "EPERM"); by intros [= <- _].
  - destruct (includes t "EPERM"); by intros [= <- _].
Qed.

(** A run whose [fs.symlinkSync] returns, or throws a value with a text. *)
Lemma createDirectoryLink_readable {W} (node : Node W) target linkPath (s : State W) :
  readable (fst (fs_symlinkSync node target linkPath (requestedKind node) (world s))) →
  createDirectoryLink node target linkPath s =
  (Normal
     match fst (fs_symlinkSync node target linkPath (requestedKind node) (world s)) with
     | Ok _ => mkLinkResult true (expectedType node) None
     | Err e => mkLinkResult false (expectedType node) (failureMessage node <$> textOf e)
     end,
   mkState (snd (fs_symlinkSync node target linkPath (requestedKind node) (world s)))
           (calls s ++ [SymlinkSync target linkPath (requestedKind node)])).
Proof.
  intros Hreadable. rewrite createDirectoryLink_run.
  destruct (fst (fs_symlinkSync node target linkPath (requestedKind node) (world s)))
    as [[]|e]; [reflexivity|].
  destruct Hreadable as [text Htext].
  rewrite (describeFailure_text node e text _ Htext), Htext. reflexivity.
Qed.

(** Every run makes the one call, whatever becomes of it. *)
Lemma createDirectoryLink_calls {W} (node : Node W) target linkPath (s : State W) :
  calls (snd (createDirectoryLink node target linkPath s)) =
  calls s ++ [SymlinkSync target linkPath (requestedKind node)].
Proof.
  rewrite createDirectoryLink_run.
  destruct (fst (fs_symlinkSync node target linkPath (requestedKind node) (world s)));
    [reflexivity|]. by rewrite describeFailure_state.
Qed.

(** Every result has the type of the platform. *)
Lemma createDirectoryLink_type {W} (node : Node W) target linkPath (s : State W) r :
  fst (createDirectoryLink node target linkPath s) = Normal r →
  type r = expectedType node.
Proof.
  rewrite createDirectoryLink_run.
  destruct (fst (fs_symlinkSync node target linkPath (requestedKind node) (world s)))
    as [[]|e].
  - by intros [= <-].
  - destruct (describeFailure node e _) as [c s1] eqn:E. simpl. intros ->.
    exact (describeFailure_type node e _ s1 r E).
Qed.

(** C4. When the link creation fails with an error text: on a
    Windows-classified platform a text that contains EPERM gives
    [success:false] and a message that contains both "Permission denied" and
    "administrator"; every other failure, on either platform, gives the
    error text itself as message. *)
Theorem createDirectoryLink_failure_message {W} (node : Node W)
    target linkPath (s : State W) (e : thrown) (text : string) (w' : W) :
  fs_symlinkSync node target linkPath (requestedKind node) (world s) = (Err e, w') →
  textOf e = Some text →
  ∃ r s',
    createDirectoryLink node target linkPath s = (Normal r, s') ∧
    success r = false ∧
    (process_platform node = "win32" → includes text "EPERM" = true →
       ∃ m, message r = Some m ∧
            includes m "Permission denied" = true ∧
            includes m "administrator" = true) ∧
    (¬ (process_platform node = "win32" ∧ includes text "EPERM" = true) →
       message r = Some text).
Proof.
  intros Hfail Htext. rewrite createDirectoryLink_run, Hfail. simpl.
  rewrite (describeFailure_text node e text _ Htext).
  eexists _, _. split; [reflexivity|]. simpl. split; [reflexivity|].
  unfold failureMessage. split.
  - intros Hwin Hperm. apply platform_eqb_win32 in Hwin. rewrite Hwin, Hperm. simpl.
    exists EPERM_message. repeat split; reflexivity.
  - intros Hother.
    destruct (String.eqb (process_platform node) "win32") eqn:Hwin; simpl; [|reflexivity].
    destruct (includes text "EPERM") eqn:Hperm; [|reflexivity].
    exfalso. apply Hother. split; [|reflexivity]. by apply platform_eqb_win32.
Qed.

Lemma createDirectoryLink_failure_message_witness :
  ∃ r s',
    createDirectoryLink (Mock.node (failing "win32" eperm))
      "/path/to/target" "/path/to/link" Mock.start = (Normal r, s') ∧
    success r = false ∧
    ∃ m, message r = Some m ∧
         includes m "Permission denied" = true ∧ includes m "administrator" = true.
Proof.
  destruct (createDirectoryLink_failure_message (Mock.node (failing "win32" eperm))
              "/path/to/target" "/path/to/link" Mock.start eperm
              "EPERM: operation not permitted, symlink" tt)
    as (r & s' & Hrun & Hfalse & Hwin & _).
  - reflexivity.
  - reflexivity.
  - exists r, s'. split; [exact Hrun|]. split; [exact Hfalse|].
    apply Hwin; reflexivity.
Defined.

(** C5. Whatever [fs.symlinkSync] does, [createDirectoryLink] makes exactly
    one call of it: of kind "dir" on a platform other than win32, where it
    reports type symlink, and of kind "junction" on win32, where it reports
    type junction; the reported type is the same on success and on failure.
    It reports a result whenever the call returns or throws a value with a
    text. *)
Theorem createDirectoryLink_kind_matches_platform {W} (node : Node W)
    target linkPath (s : State W) :
  ∃ c s',
    createDirectoryLink node target linkPath s = (c, s') ∧
    (process_platform node ≠ "win32" →
       calls s' = calls s ++ [SymlinkSync target linkPath "dir"] ∧
       ∀ r, c = Normal r → type r = symlink) ∧
    (process_platform node = "win32" →
       calls s' = calls s ++ [SymlinkSync target linkPath "junction"] ∧
       ∀ r, c = Normal r → type r = junction) ∧
    (readable (fst (fs_symlinkSync node target linkPath (requestedKind node) (world s))) →
       ∃ r, c = Normal r).
Proof.
  pose proof (createDirectoryLink_calls node target linkPath s) as Hlog.
  pose proof (createDirectoryLink_type node target linkPath s) as Htype.
  destruct (createDirectoryLink node target linkPath s) as [c s'] eqn:Hrun.
  exists c, s'. split; [reflexivity|]. simpl in Hlog, Htype.
  unfold requestedKind, expectedType in Hlog, Htype.
  destruct (String.eqb (process_platform node) "win32") eqn:Hwin.
  - apply platform_eqb_win32 in Hwin. split; [congruence|]. split; [done|].
    intros Hreadable. rewrite createDirectoryLink_readable in Hrun by done.
    injection Hrun as <- _. eauto.
  - split; [done|]. split.
    + intros Hw. apply platform_eqb_win32 in Hw. congruence.
    + intros Hreadable. rewrite createDirectoryLink_readable in Hrun by done.
      injection Hrun as <- _. eauto.
Qed.

Lemma createDirectoryLink_kind_matches_platform_witness :
  ∃ r s',
    createDirectoryLink (Mock.node (failing "linux" eperm))
      "/path/to/target" "/path/to/link" Mock.start = (Normal r, s') ∧
    calls s' = [SymlinkSync "/path/to/target" "/path/to/link" "dir"] ∧
    type r = symlink.
Proof.
  destruct (createDirectoryLink_kind_matches_platform (Mock.node (failing "linux" eperm))
              "/path/to/target" "/path/to/link" Mock.start)
    as (c & s' & Hrun & Hunix & _ & Hreturns).
  destruct Hreturns as [r ->]; [simpl; eauto|].
  exists r, s'. split; [exact Hrun|].
  destruct Hunix as [Hcalls Htype]; [simpl; discriminate|].
  split; [exact Hcalls | by apply Htype].
Defined.

(** C9, as the code has it.  When [fs.symlinkSync] throws an [Error] with a
    string message, or a value that is not an [Error] and has a string
    conversion, [createDirectoryLink] returns a result with [success:false];
    its message is that text, except on win32 when the text contains EPERM:
    then the message is the fixed permission hint.  The function is not
    total beyond that.  For a thrown value that [String(...)] cannot
    convert, the conversion in the [catch] clause throws, on every platform;
    for an [Error] whose message is [undefined], reading [includes] off it
    throws on win32, and elsewhere the result carries no message.  What the
    [catch] clause throws reaches the caller. *)
Theorem createDirectoryLink_on_failure {W} (node : Node W) target linkPath
    (s : State W) (e : thrown) (w' : W) :
  fs_symlinkSync node target linkPath (requestedKind node) (world s) = (Err e, w') →
  let s' := mkState w' (calls s ++ [SymlinkSync target linkPath (requestedKind node)]) in
  (∀ text, e = JsError text ∨ e = JsValue text →
     ∃ r, createDirectoryLink node target linkPath s = (Normal r, s') ∧
          success r = false ∧
          message r =
            Some (if String.eqb (process_platform node) "win32" && includes text "EPERM"
                  then EPERM_message else text)) ∧
  (e = JsUnprintable →
     createDirectoryLink node target linkPath s =
     (Throws (TypeError "Cannot convert object to primitive value"), s')) ∧
  (e = JsErrorNoMessage →
     createDirectoryLink node target linkPath s =
     if String.eqb (process_platform node) "win32"
     then (Throws (TypeError "Cannot read properties of undefined (reading 'includes')"), s')
     else (Normal (mkLinkResult false symlink None), s')).
Proof.
  intros Hfail s'. rewrite createDirectoryLink_run, Hfail. simpl. fold s'.
  split; [|split].
  - intros text Htext.
    rewrite (describeFailure_text node e text s') by (by destruct Htext as [-> | ->]).
    eexists. split; [reflexivity|]. split; reflexivity.
  - intros ->. unfold describeFailure, bind, errorText, throw. reflexivity.
  - intros ->. unfold describeFailure, bind, errorText, includesOf, throw, ret.
    by destruct (String.eqb (process_platform node) "win32").
Qed.

Lemma createDirectoryLink_on_failure_witness :
  ∃ r s',
    createDirectoryLink (Mock.node (failing "win32" (JsValue "String error")))
      "/path/to/target" "/path/to/link" Mock.start = (Normal r, s') ∧
    success r = false ∧ message r = Some "String error".
Proof.
  destruct (createDirectoryLink_on_failure
              (Mock.node (failing "win32" (JsValue "String error")))
              "/path/to/target" "/path/to/link" Mock.start (JsValue "String error") tt
              eq_refl)
    as (Htext & _ & _).
  destruct (Htext "String error") as (r & Hrun & Hfalse & Hmessage); [by right|].
  eexists r, _. split; [exact Hrun|]. split; [exact Hfalse | exact Hmessage].
Defined.

(** C9 as stated fails.  A mocked [fs.symlinkSync] throws
    [Object.create(null)]: the string conversion in the [catch] clause throws
    a [TypeError], and the call ends with that exception instead of a
    result. *)
Lemma createDirectoryLink_not_total :
  createDirectoryLink (Mock.node (failing "linux" JsUnprintable))
    "/path/to/target" "/path/to/link" Mock.start
  = (Throws (JsError "Cannot convert object to primitive value"),
     mkState tt [SymlinkSync "/path/to/target" "/path/to/link" "dir"]).
Proof. reflexivity. Qed.

(** Nor is the message always the text of the thrown value: on win32 the
    EPERM error of the test suite is not reported with its own message. *)
Example createDirectoryLink_eperm_message_replaced :
  ∃ r s',
    createDirectoryLink (Mock.node (failing "win32" eperm))
      "/path/to/target" "/path/to/link" Mock.start = (Normal r, s') ∧
    success r = false ∧
    message r ≠ Some "EPERM: operation not permitted, symlink".
Proof.
  eexists _, _. split; [reflexivity|]. split; [reflexivity|]. discriminate.
Qed.

End SymlinkSpec.

(** ** platform.ts *)

Module PlatformSpec.

Import Platform Scenarios Logs Walk MonadFacts LogFacts.

Section WithNode.
Context {W : Type} (node : Node W).

Lemma no_exit_for_of {A} (xs : list A) (body : A → M W unit) :
  (∀ x, no_exit (body x)) → no_exit (for_of xs body).
Proof.
  intros Hbody. induction xs as [|x rest IH]; simpl.
  - apply no_exit_ret.
  - apply no_exit_bind; [apply Hbody | intros _; exact IH].
Qed.

Lemma no_exit_visitEntry recurse dir entry :
  (∀ p, no_exit (recurse p)) → no_exit (visitEntry node recurse dir entry).
Proof.
  intros Hrec. unfold visitEntry. apply no_exit_try_catch.
  - apply no_exit_bind; [apply no_exit_call | intros _].
    apply no_exit_when, Hrec.
  - intros _. apply no_exit_ret.
Qed.

Lemma no_exit_removeReadOnlyRecursive stack dir :
  no_exit (removeReadOnlyRecursive node stack dir).
Proof.
  revert dir. induction stack as [|stack' IH]; intros dir; simpl.
  - apply no_exit_throw.
  - apply no_exit_bind; [apply no_exit_call | intros present].
    destruct present; simpl; [|apply no_exit_ret].
    apply no_exit_bind; [apply no_exit_call | intros entries].
    apply no_exit_for_of. intros entry. by apply no_exit_visitEntry.
Qed.

(** The loop over the entries never throws: each entry has its own handler. *)
Lemma for_of_visitEntry_normal recurse dir entries (s : State W) :
  (∀ p, no_exit (recurse p)) →
  ∃ s', for_of entries (visitEntry node recurse dir) s = (Normal tt, s').
Proof.
  intros Hrec. revert s. induction entries as [|entry rest IH]; intros s; simpl.
  - unfold ret. eauto.
  - unfold bind.
    destruct (try_catch_swallows
                (chmodSync node (path_join node dir (name entry)) (ModeNumber 438) ;;;
                 when (isDirectory entry) (recurse (path_join node dir (name entry)))) s)
      as [s1 Hs1].
    { apply no_exit_bind; [apply no_exit_call | intros _]. apply no_exit_when, Hrec. }
    unfold visitEntry. rewrite Hs1. apply IH.
Qed.

(** An entry whose mode change throws: the handler of the entry swallows the
    exception before the recursion is reached. *)
Lemma visitEntry_chmod_fails recurse dir entry (s : State W) e w' :
  fs_chmodSync node (path_join node dir (name entry)) (ModeNumber 438) (world s)
    = (Err e, w') →
  visitEntry node recurse dir entry s =
  (Normal tt,
   mkState w' (calls s ++ [ChmodSync (path_join node dir (name entry)) (ModeNumber 438)])).
Proof.
  intros Hfail. unfold visitEntry, try_catch, bind, chmodSync, call.
  rewrite Hfail. reflexivity.
Qed.

Lemma for_of_app {A} (xs ys : list A) (body : A → M W unit) (s s1 : State W) :
  for_of xs body s = (Normal tt, s1) →
  for_of (xs ++ ys) body s = for_of ys body s1.
Proof.
  revert s. induction xs as [|x rest IH]; intros s; simpl.
  - unfold ret. congruence.
  - unfold bind. destruct (body x s) as [[[]|e|code] s2]; [apply IH | congruence..].
Qed.

Lemma logs_visitEntry recurse dir entry :
  (∀ p, logs walkCall (recurse p)) →
  logs walkCall (visitEntry node recurse dir entry).
Proof.
  intros Hrec. unfold visitEntry. apply logs_try_catch.
  - apply logs_bind; [by apply logs_call | intros _]. apply logs_when, Hrec.
  - intros _. apply logs_ret.
Qed.

Lemma logs_removeReadOnlyRecursive stack dir :
  logs walkCall (removeReadOnlyRecursive node stack dir).
Proof.
  revert dir. induction stack as [|stack' IH]; intros dir; simpl.
  - apply logs_throw.
  - apply logs_bind; [by apply logs_call | intros present].
    destruct present; simpl; [|apply logs_ret].
    apply logs_bind; [by apply logs_call | intros entries].
    apply logs_for_of. intros entry. by apply logs_visitEntry.
Qed.

(** The visit of an entry returns, and the first call it makes is the mode
    change of the entry. *)
Lemma visitEntry_attempt recurse dir entry (s : State W) :
  (∀ p, no_exit (recurse p)) →
  (∀ p, logs walkCall (recurse p)) →
  ∃ s1 more,
    visitEntry node recurse dir entry s = (Normal tt, s1) ∧
    calls s1 =
      calls s ++ ChmodSync (path_join node dir (name entry)) (ModeNumber 438) :: more.
Proof.
  intros Hexit Hlogs. unfold visitEntry, try_catch, bind, chmodSync, call.
  destruct (fs_chmodSync node (path_join node dir (name entry)) (ModeNumber 438) (world s))
    as [[[]|e] w1].
  - destruct (isDirectory entry); simpl.
    + destruct (Hlogs (path_join node dir (name entry))
                  (mkState w1 (calls s ++
                     [ChmodSync (path_join node dir (name entry)) (ModeNumber 438)])))
        as (added & Hcalls & _).
      destruct (recurse (path_join node dir (name entry)) _) as [[[]|e|code] s2] eqn:E.
      * exists s2, added. split; [reflexivity|].
        simpl in Hcalls. by rewrite Hcalls, <- app_assoc.
      * exists s2, added. split; [reflexivity|].
        simpl in Hcalls. by rewrite Hcalls, <- app_assoc.
      * exfalso. exact (Hexit _ _ _ _ E).
    + eexists _, []. split; reflexivity.
  - eexists _, []. split; reflexivity.
Qed.

(** The loop over a listing returns; the mode of every entry is attempted,
    in the order of the listing, and the first call is the mode change of
    the first entry. *)
Lemma for_of_visitEntry_attempts recurse dir entries (s : State W) :
  (∀ p, no_exit (recurse p)) →
  (∀ p, logs walkCall (recurse p)) →
  ∃ s' added,
    for_of entries (visitEntry node recurse dir) s = (Normal tt, s') ∧
    calls s' = calls s ++ added ∧
    sublist
      (map (fun e => ChmodSync (path_join node dir (name e)) (ModeNumber 438)) entries)
      added ∧
    match entries with
    | [] => added = []
    | e :: _ =>
        ∃ rest, added = ChmodSync (path_join node dir (name e)) (ModeNumber 438) :: rest
    end.
Proof.
  intros Hexit Hlogs. revert s. induction entries as [|entry rest IH]; intros s.
  - exists s, []. simpl. rewrite app_nil_r. repeat split; constructor.
  - destruct (visitEntry_attempt recurse dir entry s Hexit Hlogs)
      as (s1 & more & Hvisit & Hcalls1).
    destruct (IH s1) as (s' & added & Hrest & Hcalls & Hall & _).
    exists s', (ChmodSync (path_join node dir (name entry)) (ModeNumber 438)
                :: more ++ added).
    cbn [for_of]. unfold bind. rewrite Hvisit. split; [exact Hrest|]. split.
    + rewrite Hcalls, Hcalls1, <- app_assoc. reflexivity.
    + split; [|eauto]. cbn [map]. apply sublist_skip. by apply sublist_inserts_l.
Qed.

End WithNode.

(** C7. [isWindows()] is true exactly when [process.platform] is win32, and
    [removeReadOnly] and [makeFileExecutable] complete normally for every
    path, whatever the calls into [fs] and [child_process] do. *)
Theorem platform_helpers_never_raise {W} (node : Node W) :
  (isWindows node = true ↔ process_platform node = "win32") ∧
  (∀ stack dirPath (s : State W),
     ∃ s', removeReadOnly node stack dirPath s = (Normal tt, s')) ∧
  (∀ filePath (s : State W),
     ∃ s', makeFileExecutable node filePath s = (Normal tt, s')).
Proof.
  split; [apply String.eqb_eq|]. split.
  - intros stack dirPath s. unfold removeReadOnly.
    destruct (negb (isWindows node)); apply try_catch_swallows.
    + apply no_exit_bind; [apply no_exit_call | intros _; apply no_exit_ret].
    + apply no_exit_removeReadOnlyRecursive.
  - intros filePath s. unfold makeFileExecutable.
    destruct (negb (isWindows node)).
    + apply try_catch_swallows, no_exit_call.
    + unfold ret. eauto.
Qed.

(** C10. On win32, take any directory of the walk that exists and is listed,
    and in its listing an entry, directory or not, after the entries [pre]
    and before the entries [post].  The entries before it have been visited
    when its turn comes, in some state [s1].  If the mode change of the
    entry throws there, its visit is that one [chmodSync] call: the walk
    does not descend into it, whatever lies below.  The walk then goes on
    with the entries after it: the call that follows is the mode change of
    the next entry, the mode of every later entry of the listing is
    attempted, in the order of the listing, and [removeReadOnly] returns
    normally in the state that the visits of these entries leave. *)
Theorem removeReadOnly_failed_entry_skips_subtree {W} (node : Node W)
    stack' dir (pre post : list Dirent) (entry : Dirent) (s : State W) (w0 w1 : W) :
  let visit := visitEntry node (removeReadOnlyRecursive node stack') dir in
  let modeChange :=
    fun sibling => ChmodSync (path_join node dir (name sibling)) (ModeNumber 438) in
  process_platform node = "win32" →
  fs_existsSync node dir (world s) = (Ok true, w0) →
  fs_readdirSync node dir w0 = (Ok (pre ++ entry :: post), w1) →
  ∃ s1,
    for_of pre visit (mkState w1 (calls s ++ [ExistsSync dir; ReaddirSync dir]))
      = (Normal tt, s1) ∧
    ∀ e w',
      fs_chmodSync node (path_join node dir (name entry)) (ModeNumber 438) (world s1)
        = (Err e, w') →
      ∃ s2 after,
        removeReadOnly node (S stack') dir s = (Normal tt, s2) ∧
        removeReadOnlyRecursive node (S stack') dir s = (Normal tt, s2) ∧
        for_of post visit (mkState w' (calls s1 ++ [modeChange entry])) = (Normal tt, s2) ∧
        calls s2 = calls s1 ++ modeChange entry :: after ∧
        sublist (map modeChange post) after ∧
        match post with
        | [] => after = []
        | next :: _ => ∃ rest, after = modeChange next :: rest
        end.
Proof.
  intros visit modeChange Hwin Hexists Hlist.
  assert (Hexit : ∀ p, no_exit (removeReadOnlyRecursive node stack' p))
    by (intros p; apply no_exit_removeReadOnlyRecursive).
  assert (Hlogs : ∀ p, logs walkCall (removeReadOnlyRecursive node stack' p))
    by (intros p; apply logs_removeReadOnlyRecursive).
  destruct (for_of_visitEntry_attempts node _ dir pre
              (mkState w1 (calls s ++ [ExistsSync dir; ReaddirSync dir])) Hexit Hlogs)
    as (s1 & added & Hpre & _).
  exists s1. split; [exact Hpre|]. intros e w' Hfail.
  destruct (for_of_visitEntry_attempts node _ dir post
              (mkState w' (calls s1 ++ [modeChange entry])) Hexit Hlogs)
    as (s2 & after & Hpost & Hcalls & Hall & Hnext).
  assert (Hwalk : removeReadOnlyRecursive node (S stack') dir s = (Normal tt, s2)).
  { cbn [removeReadOnlyRecursive]. unfold bind at 1. unfold existsSync, call.
    rewrite Hexists. cbn [negb]. unfold bind at 1. unfold readdirSync, call.
    cbn [world calls]. rewrite Hlist. rewrite <- app_assoc. cbn [app].
    rewrite (for_of_app pre (entry :: post) _ _ s1 Hpre).
    cbn [for_of]. unfold bind at 1.
    rewrite (visitEntry_chmod_fails node _ dir entry s1 e w' Hfail). exact Hpost. }
  exists s2, after. split.
  - unfold removeReadOnly, isWindows. apply String.eqb_eq in Hwin. rewrite Hwin.
    cbn [negb]. unfold try_catch. by rewrite Hwalk.
  - split; [exact Hwalk|]. split; [exact Hpost|]. split; [|by split].
    rewrite Hcalls. cbn [calls]. by rewrite <- app_assoc.
Qed.

Lemma removeReadOnly_failed_entry_skips_subtree_witness :
  removeReadOnly (Mock.node lockedTree) 8 "/t" Mock.start
  = (Normal tt,
     mkState tt [ExistsSync "/t"; ReaddirSync "/t";
                 ChmodSync "/t/a.md" (ModeNumber 438);
                 ChmodSync "/t/locked" (ModeNumber 438);
                 ChmodSync "/t/z.md" (ModeNumber 438)]).
Proof.
  destruct (removeReadOnly_failed_entry_skips_subtree (Mock.node lockedTree) 7 "/t"
              [mkDirent "a.md" false] [mkDirent "z.md" false] (mkDirent "locked" true)
              Mock.start tt tt)
    as (s1 & Hpre & Hskip).
  - reflexivity.
  - reflexivity.
  - reflexivity.
  - injection Hpre as <-.
    destruct (Hskip (JsError "Access denied") tt) as (s2 & after & Hrun & _ & Hpost & _).
    + reflexivity.
    + injection Hpost as <-. exact Hrun.
Defined.

(** The whole of [removeReadOnly] on that tree: nothing below the locked
    directory is looked at, and the file after it is made writable. *)
Example removeReadOnly_lockedTree :
  removeReadOnly (Mock.node lockedTree) 8 "/t" Mock.start
  = (Normal tt,
     mkState tt [ExistsSync "/t"; ReaddirSync "/t";
                 ChmodSync "/t/a.md" (ModeNumber 438);
                 ChmodSync "/t/locked" (ModeNumber 438);
                 ChmodSync "/t/z.md" (ModeNumber 438)]).
Proof. reflexivity. Qed.

(** The same tree without the lock: the directory is entered. *)
Example removeReadOnly_unlockedTree :
  removeReadOnly (Mock.node unlockedTree) 8 "/t" Mock.start
  = (Normal tt,
     mkState tt [ExistsSync "/t"; ReaddirSync "/t";
                 ChmodSync "/t/a.md" (ModeNumber 438);
                 ChmodSync "/t/locked" (ModeNumber 438);
                 ExistsSync "/t/locked"; ReaddirSync "/t/locked";
                 ChmodSync "/t/locked/inner.md" (ModeNumber 438);
                 ChmodSync "/t/z.md" (ModeNumber 438)]).
Proof. reflexivity. Qed.

(** A mocked tree without bottom: the calls nest until the stack is used up,
    and [removeReadOnly] still returns. *)
Example removeReadOnly_bottomless :
  fst (removeReadOnly (Mock.node bottomlessTree) 3 "/t" Mock.start) = Normal tt.
Proof. reflexivity. Qed.

End PlatformSpec.

(** ** The thoughts init command *)

Module InitSpec.

Import Symlink Init Scenarios MonadFacts SymlinkSpec.

Section WithNode.
Context {W : Type} (node : Node W).

Lemma existsAsSymbolicLink_link (s : State W) p :
  isLinkAt node (world s) p →
  ∃ s', existsAsSymbolicLink node p s = (Normal true, s') ∧ world s' = world s.
Proof.
  intros (Hex & st & Hst & Hlink).
  unfold existsAsSymbolicLink, bind, existsSync, lstatSync, call, ret.
  rewrite Hex. simpl. rewrite Hst. simpl. rewrite Hlink. eauto.
Qed.

Lemma existsAsSymbolicLink_no_link (s : State W) p :
  noLinkAt node (world s) p →
  ∃ s', existsAsSymbolicLink node p s = (Normal false, s') ∧ world s' = world s.
Proof.
  intros [Hex | (Hex & st & Hst & Hlink)];
    unfold existsAsSymbolicLink, bind, existsSync, lstatSync, call, ret;
    rewrite Hex; simpl.
  - eauto.
  - rewrite Hst. simpl. rewrite Hlink. eauto.
Qed.

(** The first two checks pass when [thoughts] is a directory. *)
Lemma checkExistingSetup_enters (s : State W) config :
  isDirectoryAt node (world s) (path_join node (process_cwd node) "thoughts") →
  ∃ s0, world s0 = world s ∧
    checkExistingSetup node config s =
    (let localPath :=
       path_join node (path_join node (process_cwd node) "thoughts") "local" in
     let* hasOldLocal := existsAsSymbolicLink node localPath in
     if hasOldLocal then
       ret (mkSetupStatus true false (Some true)
              (Some "thoughts directory uses old structure (needs upgrade)"))
     else
       match config with
       | None =>
           ret (mkSetupStatus true false None
                  (Some "thoughts directory exists but configuration is missing"))
       | Some config =>
           let thoughtsDir := path_join node (process_cwd node) "thoughts" in
           let* hasUser := existsAsSymbolicLink node (path_join node thoughtsDir (user config)) in
           let* hasShared := existsAsSymbolicLink node (path_join node thoughtsDir "shared") in
           let* hasGlobal := existsAsSymbolicLink node (path_join node thoughtsDir "global") in
           if negb hasUser || negb hasShared || negb hasGlobal then
             ret (mkSetupStatus true false None
                    (Some "thoughts directory exists but symlinks are missing or broken"))
           else ret (mkSetupStatus true true None None)
       end) s0.
Proof.
  intros (Hex & st & Hst & Hdir).
  unfold checkExistingSetup at 1. unfold bind at 1. unfold existsSync at 1. unfold call at 1.
  rewrite Hex. simpl. unfold bind at 1. unfold lstatSync at 1. unfold call at 1. simpl.
  rewrite Hst. simpl. rewrite Hdir. simpl.
  eexists. split; [|reflexivity]. reflexivity.
Qed.

End WithNode.

Local Abbreviation under node name :=
  (path_join node (path_join node (process_cwd node) "thoughts") name).

(** C3. Let [thoughts] under the working directory be a directory.
    - If [thoughts/local] is a link, the status is
      [{exists:true, isValid:false, isOldStructure:true}], with or without a
      configuration and whatever the state of the three expected links.
    - If it is not, and a configuration is given, each of [thoughts/<user>],
      [thoughts/shared], [thoughts/global] being found to be a link or not:
      when one of them is not, the status is [{exists:true, isValid:false}]
      with the message about missing or broken symlinks, and when all three
      are, it is [{exists:true, isValid:true}]. *)
Theorem checkExistingSetup_order {W} (node : Node W) (s : State W) :
  let thoughtsDir := path_join node (process_cwd node) "thoughts" in
  let under := path_join node thoughtsDir in
  isDirectoryAt node (world s) thoughtsDir →
  (isLinkAt node (world s) (under "local") →
   ∀ config, ∃ status,
     fst (checkExistingSetup node config s) = Normal status ∧
     exists_ status = true ∧ isValid status = false ∧
     isOldStructure status = Some true) ∧
  (noLinkAt node (world s) (under "local") →
   ∀ config,
     (∀ p, p ∈ [under (user config); under "shared"; under "global"] →
           isLinkAt node (world s) p ∨ noLinkAt node (world s) p) →
     ((∃ p, p ∈ [under (user config); under "shared"; under "global"] ∧
            noLinkAt node (world s) p) →
      ∃ m,
        fst (checkExistingSetup node (Some config) s) =
          Normal (mkSetupStatus true false None (Some m)) ∧
        includes m "symlinks are missing or broken" = true) ∧
     ((∀ p, p ∈ [under (user config); under "shared"; under "global"] →
            isLinkAt node (world s) p) →
      fst (checkExistingSetup node (Some config) s) =
        Normal (mkSetupStatus true true None None))).
Proof.
  intros thoughtsDir under Hdir. subst thoughtsDir under. split.
  - intros Hlocal config.
    destruct (checkExistingSetup_enters node s config Hdir) as (s0 & Hw0 & ->).
    cbv zeta. unfold bind at 1.
    destruct (existsAsSymbolicLink_link node s0 (under node "local")) as (s1 & -> & _);
      [by rewrite Hw0|].
    simpl. eexists. split; [reflexivity|]. by simpl.
  - intros Hlocal config Hknown.
    assert (Hlinked : ∀ p b, (linkIs node (world s) p b) →
              ∀ s0 : State W, world s0 = world s →
              ∃ s1, existsAsSymbolicLink node p s0 = (Normal b, s1) ∧ world s1 = world s).
    { intros p b Hp s0 Hw0. destruct b; simpl in Hp.
      - destruct (existsAsSymbolicLink_link node s0 p) as (s1 & ? & ?);
          [by rewrite Hw0|]. exists s1. split; congruence.
      - destruct (existsAsSymbolicLink_no_link node s0 p) as (s1 & ? & ?);
          [by rewrite Hw0|]. exists s1. split; congruence. }
    assert (Hrun : ∀ bu bs bg,
              (linkIs node (world s) (under node (user config)) bu) →
              (linkIs node (world s) (under node "shared") bs) →
              (linkIs node (world s) (under node "global") bg) →
              fst (checkExistingSetup node (Some config) s) =
              Normal (if negb bu || negb bs || negb bg
                      then mkSetupStatus true false None
                             (Some "thoughts directory exists but symlinks are missing or broken")
                      else mkSetupStatus true true None None)).
    { intros bu bs bg Hu Hs Hg.
      destruct (checkExistingSetup_enters node s (Some config) Hdir) as (s0 & Hw0 & ->).
      cbv zeta. unfold bind at 1.
      destruct (Hlinked _ false Hlocal s0 Hw0) as (s1 & -> & Hw1). cbv iota beta.
      unfold bind at 1. destruct (Hlinked _ bu Hu s1 Hw1) as (s2 & -> & Hw2).
      unfold bind at 1. destruct (Hlinked _ bs Hs s2 Hw2) as (s3 & -> & Hw3).
      unfold bind at 1. destruct (Hlinked _ bg Hg s3 Hw3) as (s4 & -> & Hw4).
      by destruct bu, bs, bg. }
    assert (Hclass : ∀ p, p ∈ [under node (user config); under node "shared"; under node "global"] →
              ∃ b, (linkIs node (world s) p b) ∧
                   (noLinkAt node (world s) p → b = false)).
    { intros p Hp. destruct (Hknown p Hp) as [Hl | Hn].
      - exists true. split; [exact Hl|]. intros Hn.
        destruct Hl as (Hex & st & Hst & Hlink).
        destruct Hn as [Hex' | (_ & st' & Hst' & Hlink')];
          unfold answers in *; congruence.
      - exists false. by split. }
    destruct (Hclass (under node (user config))) as (bu & Hu & Hfu); [set_solver|].
    destruct (Hclass (under node "shared")) as (bs & Hs & Hfs); [set_solver|].
    destruct (Hclass (under node "global")) as (bg & Hg & Hfg); [set_solver|].
    split.
    + intros (p & Hp & Hno).
      exists "thoughts directory exists but symlinks are missing or broken".
      split; [|reflexivity].
      rewrite (Hrun bu bs bg Hu Hs Hg).
      assert (negb bu || negb bs || negb bg = true) as ->; [|reflexivity].
      apply elem_of_cons in Hp as [-> | Hp]; [rewrite (Hfu Hno); reflexivity|].
      apply elem_of_cons in Hp as [-> | Hp];
        [rewrite (Hfs Hno); by destruct bu|].
      apply elem_of_cons in Hp as [-> | Hp];
        [rewrite (Hfg Hno); by destruct bu, bs|].
      by apply elem_of_nil in Hp.
    + intros Hall.
      rewrite (Hrun true true true); [reflexivity| apply Hall; set_solver..].
Qed.

Lemma checkExistingSetup_order_witness :
  ∃ status,
    fst (checkExistingSetup (Mock.node oldStructureTree)
           (Some (mkThoughtsConfig "~/thoughts" "repos" "global" "alice")) Mock.start)
      = Normal status ∧
    exists_ status = true ∧ isValid status = false ∧ isOldStructure status = Some true.
Proof.
  destruct (checkExistingSetup_order (Mock.node oldStructureTree) Mock.start)
    as [Hold _].
  - split; [reflexivity|]. exists (mkStats true false). split; reflexivity.
  - apply Hold.
    split; [reflexivity|]. exists (mkStats false true). split; reflexivity.
Defined.

(** C6. Where [fs.symlinkSync] fails, as Node's does, with an error that has
    a text, the link step of the setup command attempts the three links in
    turn, each whatever became of the ones before.  If all three succeed the
    command goes on.  If any failed, the command prints the headline and one
    line for each failed link with that link's message, and exits with code
    1; the world is then the one the three [fs.symlinkSync] calls left: no
    other call into [fs] is made, so the links that were created stay. *)
Theorem createThoughtsLinks_aggregates_failures {W} (node : Node W)
    repoTarget globalTarget thoughtsDir user (s : State W) :
  (∀ target linkPath kind w, readable (fst (fs_symlinkSync node target linkPath kind w))) →
  ∃ userLink sharedLink globalLink s1 s2 s3,
    createDirectoryLink node (path_join node repoTarget user)
      (path_join node thoughtsDir user) s = (Normal userLink, s1) ∧
    createDirectoryLink node (path_join node repoTarget "shared")
      (path_join node thoughtsDir "shared") s1 = (Normal sharedLink, s2) ∧
    createDirectoryLink node globalTarget
      (path_join node thoughtsDir "global") s2 = (Normal globalLink, s3) ∧
    calls s3 =
      calls s ++
      [SymlinkSync (path_join node repoTarget user)
         (path_join node thoughtsDir user) (requestedKind node);
       SymlinkSync (path_join node repoTarget "shared")
         (path_join node thoughtsDir "shared") (requestedKind node);
       SymlinkSync globalTarget
         (path_join node thoughtsDir "global") (requestedKind node)] ∧
    createThoughtsLinks node repoTarget globalTarget thoughtsDir user s =
      if success userLink && success sharedLink && success globalLink
      then (Normal (userLink, sharedLink, globalLink), s3)
      else (Exits 1,
            mkState (world s3)
                    (calls s3 ++ failureReport userLink sharedLink globalLink)).
Proof.
  intros Hreadable.
  eexists _, _, _, _, _, _.
  split; [by apply createDirectoryLink_readable|].
  split; [by apply createDirectoryLink_readable|].
  split; [by apply createDirectoryLink_readable|].
  split; [simpl; rewrite <- !app_assoc; reflexivity|].
  unfold createThoughtsLinks.
  unfold bind at 1. rewrite createDirectoryLink_readable by done.
  unfold bind at 1. rewrite createDirectoryLink_readable by done.
  unfold bind at 1. rewrite createDirectoryLink_readable by done.
  unfold bind at 1. cbn [world calls].
  destruct (fst (fs_symlinkSync node (path_join node repoTarget user)
                   (path_join node thoughtsDir user) (requestedKind node) (world s)))
    as [[]|e1];
  destruct (fst (fs_symlinkSync node (path_join node repoTarget "shared")
                   (path_join node thoughtsDir "shared") (requestedKind node) _))
    as [[]|e2];
  destruct (fst (fs_symlinkSync node globalTarget
                   (path_join node thoughtsDir "global") (requestedKind node) _))
    as [[]|e3];
  simpl; unfold failureReport, bind, console_error, process_exit, ret; simpl;
  try reflexivity; rewrite <- ?app_assoc; reflexivity.
Qed.

Lemma createThoughtsLinks_aggregates_failures_witness :
  ∃ s',
    createThoughtsLinks (Mock.node sharedLinkFails)
      "/home/alice/thoughts/repos/app" "/home/alice/thoughts/global" "/repo/thoughts"
      "alice" Mock.start = (Exits 1, s') ∧
    calls s' =
      [SymlinkSync "/home/alice/thoughts/repos/app/alice" "/repo/thoughts/alice" "dir";
       SymlinkSync "/home/alice/thoughts/repos/app/shared" "/repo/thoughts/shared" "dir";
       SymlinkSync "/home/alice/thoughts/global" "/repo/thoughts/global" "dir";
       ConsoleError "Error: Failed to create directory links";
       ConsoleError "  Shared: EEXIST: file already exists, symlink"].
Proof.
  destruct (createThoughtsLinks_aggregates_failures (Mock.node sharedLinkFails)
              "/home/alice/thoughts/repos/app" "/home/alice/thoughts/global"
              "/repo/thoughts" "alice" Mock.start)
    as (userLink & sharedLink & globalLink & s1 & s2 & s3 &
        Huser & Hshared & Hglobal & Hcalls & Hrun).
  - intros target linkPath kind w. simpl.
    destruct (String.eqb linkPath "/repo/thoughts/shared"); simpl; eauto.
  - injection Huser as <- <-. injection Hshared as <- <-. injection Hglobal as <- <-.
    eexists. split; [exact Hrun | reflexivity].
Defined.

Example createThoughtsLinks_shared_fails :
  createThoughtsLinks (Mock.node sharedLinkFails)
    "/home/alice/thoughts/repos/app" "/home/alice/thoughts/global" "/repo/thoughts" "alice"
    Mock.start
  = (Exits 1,
     mkState tt
       [SymlinkSync "/home/alice/thoughts/repos/app/alice" "/repo/thoughts/alice" "dir";
        SymlinkSync "/home/alice/thoughts/repos/app/shared" "/repo/thoughts/shared" "dir";
        SymlinkSync "/home/alice/thoughts/global" "/repo/thoughts/global" "dir";
        ConsoleError "Error: Failed to create directory links";
        ConsoleError "  Shared: EEXIST: file already exists, symlink"]).
Proof. reflexivity. Qed.

End InitSpec.

(** ** hooks.ts *)

Module HooksSpec.

Import Scenarios Hooks MonadFacts.

(** *** The version pattern and the numbers *)

Lemma matchVersion_unfold s :
  matchVersion s =
  match
    match stripPrefix "Version: " s with
    | Some rest =>
        match takeDigits rest with
        | EmptyString => None
        | digits => Some digits
        end
    | None => None
    end
  with
  | Some digits => Some digits
  | None =>
      match s with
      | String _ s' => matchVersion s'
      | EmptyString => None
      end
  end.
Proof. destruct s; reflexivity. Qed.

(** What the pattern captures is never empty, so it is truthy. *)
Lemma matchVersion_truthy s v : matchVersion s = Some v → not_ (Some v) = false.
Proof.
  revert v. induction s as [|a s IH]; intros v; rewrite matchVersion_unfold.
  - simpl. discriminate.
  - destruct (stripPrefix "Version: " (String a s)) as [rest|]; [|apply IH].
    destruct (takeDigits rest) eqn:E; [apply IH|].
    intros [= <-]. reflexivity.
Qed.

Lemma lt_irrefl a : lt a a = false.
Proof. destruct a; simpl; [apply Z.ltb_irrefl | reflexivity..]. Qed.

(** Below 2^53 the number is the integer itself. *)
Lemma toNumber_exact n : n < 2 ^ 53 → toNumber n = Finite n.
Proof. intros H. unfold toNumber. by rewrite (proj2 (Z.ltb_lt _ _) H). Qed.

(** From 2^53 on, neighbouring integers can share their number. *)
Example parseInt_rounds :
  parseInt "9007199254740993" = Finite 9007199254740992 ∧
  parseInt "9007199254740992" = Finite 9007199254740992 ∧
  parseInt "4" = Finite 4.
Proof. repeat split; vm_compute; reflexivity. Qed.

(** *** Paths *)

Lemma append_eq_self (p suffix : string) : p +:+ suffix = p → suffix = EmptyString.
Proof.
  induction p as [|a p IH]; simpl; [done|]. intros [= H]. by apply IH.
Qed.

Lemma old_path_differs (p : string) : p +:+ ".old" ≠ p.
Proof. intros H. apply append_eq_self in H. discriminate. Qed.

(** *** The states an installation leaves *)

Lemma chmod_step platform p (s : State Disk) :
  when (negb (String.eqb platform "win32"))
    (try_catch (chmodSync p (ModeString "755")) (fun _ => ret tt)) s
  = (Normal tt, mkState (markedExecutable platform p (world s))
                        (calls s ++ chmodCalls platform p)).
Proof.
  unfold markedExecutable, chmodCalls, when, try_catch, chmodSync, call, ret.
  destruct (String.eqb platform "win32"); simpl.
  - rewrite app_nil_r. by destruct s.
  - destruct (files (world s) !! p) as [f|];
      by destruct (chmod_refused (world s)).
Qed.

Lemma lookup_written p data d :
  ∃ m, files (written p data d) !! p = Some (mkFile data m).
Proof. unfold written. simpl. rewrite lookup_insert_eq. eauto. Qed.

Lemma lookup_written_ne p q data d :
  p ≠ q → files (written p data d) !! q = files d !! q.
Proof. intros H. unfold written. simpl. by rewrite lookup_insert_ne. Qed.

Lemma lookup_markedExecutable platform p d data m :
  files d !! p = Some (mkFile data m) →
  ∃ m', files (markedExecutable platform p d) !! p = Some (mkFile data m').
Proof.
  intros H. unfold markedExecutable.
  destruct (String.eqb platform "win32"); [eauto|].
  destruct (chmod_refused d); [eauto|].
  rewrite H. simpl. rewrite lookup_insert_eq. eauto.
Qed.

Lemma lookup_markedExecutable_ne platform p q d :
  p ≠ q → files (markedExecutable platform p d) !! q = files d !! q.
Proof.
  intros H. unfold markedExecutable.
  destruct (String.eqb platform "win32"); [done|].
  destruct (chmod_refused d); [done|].
  destruct (files d !! p); [|done]. simpl. by rewrite lookup_insert_ne.
Qed.

Lemma chmod_step_unfolded platform p (s : State Disk) :
  when (negb (String.eqb platform "win32"))
    (try_catch (chmodSync p (ModeString "755"))
       (fun (_ : thrown) (s0 : State Disk) => (Normal tt, s0))) s
  = (Normal tt, mkState (markedExecutable platform p (world s))
                        (calls s ++ chmodCalls platform p)).
Proof. exact (chmod_step platform p s). Qed.

Lemma decide_Some {A} (x : A) : bool_decide (is_Some (Some x)) = true.
Proof. reflexivity. Qed.

Lemma decide_None {A} : bool_decide (is_Some (@None A)) = false.
Proof. reflexivity. Qed.

(** Unfold the installer down to the calls, keeping the guarded mode change. *)
Ltac fs_unfold :=
  cbv beta iota zeta
      delta [installGitHook needsUpdate hookNeedsVersionUpdate bind ret call
             existsSync readFileSync writeFileSync renameSync unlinkSync].

Ltac fs_simpl :=
  cbv beta iota zeta delta [ret];
  cbn [negb world calls files chmod_refused Hooks.content mode orb andb];
  rewrite ?decide_Some, ?decide_None;
  cbn [negb world calls files chmod_refused Hooks.content mode orb andb].

Section Runs.
Context (platform : string) (join : string → string → string).
Context (hooksDir hookName content : string).

Let hookPath := join hooksDir hookName.
Let oldHookPath := hookPath +:+ ".old".


Lemma installGitHook_absent (s : State Disk) :
  files (world s) !! hookPath = None →
  installGitHook platform join hooksDir hookName content s =
  (Normal (mkInstallResult true),
   mkState (markedExecutable platform hookPath (written hookPath content (world s)))
           (calls s ++ [ExistsSync hookPath; ExistsSync hookPath;
                        WriteFileSync hookPath content] ++ chmodCalls platform hookPath)).
Proof.
  intros Hnone. fs_unfold. fold hookPath. fs_simpl.
  rewrite !Hnone. fs_simpl. unfold when at 1. fs_simpl. rewrite !Hnone. fs_simpl.
  rewrite chmod_step_unfolded. unfold written. rewrite Hnone. cbn [world calls].
  rewrite <- !app_assoc. reflexivity.
Qed.

Lemma installGitHook_foreign (s : State Disk) (f : File) :
  files (world s) !! hookPath = Some f →
  includes (Hooks.content f) marker = false →
  installGitHook platform join hooksDir hookName content s =
  (Normal (mkInstallResult true),
   mkState (markedExecutable platform hookPath
              (written hookPath content (renamed hookPath oldHookPath f (world s))))
           (calls s ++ [ExistsSync hookPath; ReadFileSync hookPath;
                        ExistsSync hookPath; ReadFileSync hookPath;
                        RenameSync hookPath oldHookPath;
                        WriteFileSync hookPath content] ++ chmodCalls platform hookPath)).
Proof.
  intros Hsome Hforeign. fs_unfold. fold hookPath. fold oldHookPath.
  repeat (progress (fs_simpl; rewrite ?Hsome, ?Hforeign)).
  unfold when at 1.
  repeat (progress (fs_simpl; rewrite ?Hsome, ?Hforeign)).
  rewrite chmod_step_unfolded. unfold written, renamed. cbn [world calls files chmod_refused].
  rewrite <- !app_assoc. reflexivity.
Qed.

Lemma needsUpdate_own (s : State Disk) (f : File) :
  files (world s) !! hookPath = Some f →
  includes (Hooks.content f) marker = true →
  needsUpdate hookPath content s =
  (Normal (older (Hooks.content f) content),
   mkState (world s)
           (calls s ++ [ExistsSync hookPath; ReadFileSync hookPath;
                        ExistsSync hookPath; ReadFileSync hookPath])).
Proof.
  intros Hsome Hown. fs_unfold.
  repeat (progress (fs_simpl; rewrite ?Hsome, ?Hown)).
  unfold older.
  destruct (not_ (matchVersion (Hooks.content f)) || not_ (matchVersion content));
    by rewrite <- !app_assoc.
Qed.

Lemma installGitHook_own_older (s : State Disk) (f : File) :
  files (world s) !! hookPath = Some f →
  includes (Hooks.content f) marker = true →
  older (Hooks.content f) content = true →
  installGitHook platform join hooksDir hookName content s =
  (Normal (mkInstallResult true),
   mkState (markedExecutable platform hookPath
              (written hookPath content (unlinked hookPath (world s))))
           (calls s ++ [ExistsSync hookPath; ReadFileSync hookPath;
                        ExistsSync hookPath; ReadFileSync hookPath;
                        ExistsSync hookPath; ReadFileSync hookPath;
                        UnlinkSync hookPath;
                        WriteFileSync hookPath content] ++ chmodCalls platform hookPath)).
Proof.
  intros Hsome Hown Holder. unfold installGitHook. fold hookPath. fold oldHookPath.
  unfold bind at 1. rewrite (needsUpdate_own s f Hsome Hown), Holder.
  fs_unfold.
  repeat (progress (fs_simpl; rewrite ?Hsome, ?Hown)).
  unfold when at 1.
  repeat (progress (fs_simpl; rewrite ?Hsome, ?Hown)).
  rewrite chmod_step_unfolded. unfold written, unlinked. cbn [world calls files chmod_refused].
  rewrite <- !app_assoc. reflexivity.
Qed.

Lemma installGitHook_own_current (s : State Disk) (f : File) :
  files (world s) !! hookPath = Some f →
  includes (Hooks.content f) marker = true →
  older (Hooks.content f) content = false →
  installGitHook platform join hooksDir hookName content s =
  (Normal (mkInstallResult false),
   mkState (world s)
           (calls s ++ [ExistsSync hookPath; ReadFileSync hookPath;
                        ExistsSync hookPath; ReadFileSync hookPath])).
Proof.
  intros Hsome Hown Holder. unfold installGitHook. fold hookPath.
  unfold bind at 1. by rewrite (needsUpdate_own s f Hsome Hown), Holder.
Qed.

End Runs.
Section Claims.
Context (platform : string) (join : string → string → string).
Context (hooksDir hookName content : string).

Let hookPath := join hooksDir hookName.
Let oldHookPath := hookPath +:+ ".old".

(** After an installation the hook holds the new text. *)
Lemma installed_lookup (d : Disk) :
  ∃ m, files (markedExecutable platform hookPath (written hookPath content d)) !! hookPath
       = Some (mkFile content m).
Proof.
  destruct (lookup_written hookPath content d) as [m Hm].
  exact (lookup_markedExecutable platform hookPath _ content m Hm).
Qed.

(** An installation touches no path but the hook's. *)
Lemma installed_lookup_ne (d : Disk) q :
  hookPath ≠ q →
  files (markedExecutable platform hookPath (written hookPath content d)) !! q
  = files d !! q.
Proof.
  intros H. by rewrite lookup_markedExecutable_ne, lookup_written_ne.
Qed.

(** A hook that holds [content], which carries the marker and a version, is
    left alone. *)
Lemma installGitHook_settled (s : State Disk) v m :
  includes content marker = true →
  matchVersion content = Some v →
  files (world s) !! hookPath = Some (mkFile content m) →
  installGitHook platform join hooksDir hookName content s =
  (Normal (mkInstallResult false),
   mkState (world s)
           (calls s ++ [ExistsSync hookPath; ReadFileSync hookPath;
                        ExistsSync hookPath; ReadFileSync hookPath])).
Proof.
  intros Hmarker Hversion Hfile.
  apply (installGitHook_own_current platform join hooksDir hookName content s _ Hfile Hmarker).
  unfold older. simpl. rewrite Hversion, (matchVersion_truthy _ _ Hversion). simpl.
  apply lt_irrefl.
Qed.

End Claims.

(** C1, as the code has it. Let [content] carry the product marker and a
    version, and let the hook be missing, foreign or older.  Then the first
    call of [installGitHook] returns [{updated:true}], a second call with
    the same content returns [{updated:false}], and that second call only
    reads: it leaves the disk as it is and makes four calls, none of them a
    write. *)
Theorem installGitHook_twice (platform : string) (join : string → string → string)
    (hooksDir hookName content v : string) (s : State Disk) :
  let hookPath := join hooksDir hookName in
  includes content marker = true →
  matchVersion content = Some v →
  outdated (world s) hookPath content →
  ∃ s1 s2,
    installGitHook platform join hooksDir hookName content s
      = (Normal (mkInstallResult true), s1) ∧
    installGitHook platform join hooksDir hookName content s1
      = (Normal (mkInstallResult false), s2) ∧
    world s2 = world s1 ∧
    calls s2 = calls s1 ++ [ExistsSync hookPath; ReadFileSync hookPath;
                            ExistsSync hookPath; ReadFileSync hookPath].
Proof.
  intros hookPath Hmarker Hversion Hout. unfold outdated in Hout.
  assert (Hsecond : ∀ s1 : State Disk,
            (∃ m, files (world s1) !! hookPath = Some (mkFile content m)) →
            ∃ s2, installGitHook platform join hooksDir hookName content s1
                    = (Normal (mkInstallResult false), s2) ∧
                  world s2 = world s1 ∧
                  calls s2 = calls s1 ++ [ExistsSync hookPath; ReadFileSync hookPath;
                                          ExistsSync hookPath; ReadFileSync hookPath]).
  { intros s1 [m Hm]. eexists. split; [|split].
    - exact (installGitHook_settled platform join hooksDir hookName content
               s1 v m Hmarker Hversion Hm).
    - reflexivity.
    - reflexivity. }
  assert (Hfirst : ∃ d cs,
            installGitHook platform join hooksDir hookName content s =
            (Normal (mkInstallResult true),
             mkState (markedExecutable platform hookPath (written hookPath content d)) cs)).
  { destruct (files (world s) !! hookPath) as [f|] eqn:Hfile.
    - destruct (includes (Hooks.content f) marker) eqn:Hown.
      + destruct Hout as [Hforeign | Holder]; [discriminate|].
        eexists _, _.
        exact (installGitHook_own_older platform join hooksDir hookName content
                 s f Hfile Hown Holder).
      + eexists _, _.
        exact (installGitHook_foreign platform join hooksDir hookName content
                 s f Hfile Hown).
    - eexists _, _.
      exact (installGitHook_absent platform join hooksDir hookName content s Hfile). }
  destruct Hfirst as (d & cs & H1).
  destruct (Hsecond (mkState (markedExecutable platform hookPath
                                (written hookPath content d)) cs)
              (installed_lookup platform join hooksDir hookName content d))
    as (s2 & H2 & Hw & Hc).
  eexists _, s2. split; [exact H1|]. split; [exact H2|]. split; [exact Hw | exact Hc].
Qed.

Lemma installGitHook_twice_witness :
  ∃ s1 s2,
    installGitHook "linux" Mock.posix_join "/repo/.git/hooks" "pre-commit"
      (generatePreCommitHook "4") emptyHooksDir
      = (Normal (mkInstallResult true), s1) ∧
    installGitHook "linux" Mock.posix_join "/repo/.git/hooks" "pre-commit"
      (generatePreCommitHook "4") s1
      = (Normal (mkInstallResult false), s2) ∧
    world s2 = world s1 ∧
    calls s2 = calls s1 ++ [ExistsSync "/repo/.git/hooks/pre-commit";
                            ReadFileSync "/repo/.git/hooks/pre-commit";
                            ExistsSync "/repo/.git/hooks/pre-commit";
                            ReadFileSync "/repo/.git/hooks/pre-commit"].
Proof.
  apply (installGitHook_twice "linux" Mock.posix_join "/repo/.git/hooks" "pre-commit"
           (generatePreCommitHook "4") "4" emptyHooksDir).
  - vm_compute. reflexivity.
  - vm_compute. reflexivity.
  - vm_compute. exact I.
Defined.

(** C1 as stated fails for a text with a version and without the product
    marker: installed into an empty directory, it is taken for a foreign
    hook by the second call, which moves it aside, writes again and returns
    [{updated:true}]. *)
Lemma installGitHook_twice_unmarked_content :
  let install :=
    installGitHook "linux" Mock.posix_join "/repo/.git/hooks" "pre-commit" "// Version: 1" in
  let first := install emptyHooksDir in
  let second := install (snd first) in
  matchVersion "// Version: 1" = Some "1" ∧
  fst first = Normal (mkInstallResult true) ∧
  fst second = Normal (mkInstallResult true) ∧
  calls (snd second) =
    calls (snd first) ++
    [ExistsSync "/repo/.git/hooks/pre-commit";
     ReadFileSync "/repo/.git/hooks/pre-commit";
     ExistsSync "/repo/.git/hooks/pre-commit";
     ReadFileSync "/repo/.git/hooks/pre-commit";
     RenameSync "/repo/.git/hooks/pre-commit" "/repo/.git/hooks/pre-commit.old";
     WriteFileSync "/repo/.git/hooks/pre-commit" "// Version: 1";
     ChmodSync "/repo/.git/hooks/pre-commit" (ModeString "755")].
Proof. repeat split; vm_compute; reflexivity. Qed.

(** A hook that is already installed: the first call returns
    [{updated:false}] too. *)
Example installGitHook_already_installed :
  let install :=
    installGitHook "linux" Mock.posix_join "/repo/.git/hooks" "pre-commit"
      (generatePreCommitHook "4") in
  fst (install (snd (install emptyHooksDir))) = Normal (mkInstallResult false).
Proof. vm_compute. reflexivity. Qed.

(** The digits of a version are digits only. *)
Lemma takeDigits_idempotent s : takeDigits (takeDigits s) = takeDigits s.
Proof.
  induction s as [|a s IH]; simpl; [reflexivity|].
  destruct (isDigit a) eqn:E; simpl; [|reflexivity]. by rewrite E, IH.
Qed.

Lemma matchVersion_digits s v : matchVersion s = Some v → takeDigits v = v.
Proof.
  revert v. induction s as [|a s IH]; intros v; rewrite matchVersion_unfold.
  - simpl. discriminate.
  - destruct (stripPrefix "Version: " (String a s)) as [rest|]; [|apply IH].
    destruct (takeDigits rest) eqn:E; [apply IH|].
    intros [= <-]. rewrite <- E. apply takeDigits_idempotent.
Qed.

(** Versions below 2^53 are compared as the integers they spell. *)
Lemma version_order_exact a b vo vn :
  matchVersion a = Some vo → matchVersion b = Some vn →
  digitsValue 0 vo < digitsValue 0 vn → digitsValue 0 vn < 2 ^ 53 →
  lt (parseInt vo) (parseInt vn) = true.
Proof.
  intros Ha Hb Hlt Hbound. unfold parseInt.
  rewrite (matchVersion_digits _ _ Ha), (matchVersion_digits _ _ Hb).
  pose proof (matchVersion_truthy _ _ Ha) as Ta.
  pose proof (matchVersion_truthy _ _ Hb) as Tb.
  destruct vo as [|c vo]; [discriminate|]. destruct vn as [|c' vn]; [discriminate|].
  rewrite !toNumber_exact by lia. simpl lt. by apply Z.ltb_lt.
Qed.

(** C2, as the code has it. Let a hook file exist at [hooksDir/hookName].
    - If it carries the product marker and a version whose number, as
      [parseInt] yields it, is strictly smaller than the number of the new
      content's version, [installGitHook] deletes the file and writes the
      new content; it makes no rename, and [hookName.old] is as before.
    - If it does not carry the marker, [installGitHook] renames it to
      [hookName.old], where it is kept as it was, and then writes the new
      content; it makes no deletion. *)
Theorem installGitHook_replaces_own_backs_up_foreign
    (platform : string) (join : string → string → string)
    (hooksDir hookName content : string) (s : State Disk) (existing : File) :
  let hookPath := join hooksDir hookName in
  let oldHookPath := hookPath +:+ ".old" in
  files (world s) !! hookPath = Some existing →
  (includes (Hooks.content existing) marker = true →
   ∀ vo vn,
     matchVersion (Hooks.content existing) = Some vo →
     matchVersion content = Some vn →
     lt (parseInt vo) (parseInt vn) = true →
     ∃ s1 m,
       installGitHook platform join hooksDir hookName content s
         = (Normal (mkInstallResult true), s1) ∧
       calls s1 =
         calls s ++ [ExistsSync hookPath; ReadFileSync hookPath;
                     ExistsSync hookPath; ReadFileSync hookPath;
                     ExistsSync hookPath; ReadFileSync hookPath;
                     UnlinkSync hookPath;
                     WriteFileSync hookPath content] ++ chmodCalls platform hookPath ∧
       files (world s1) !! hookPath = Some (mkFile content m) ∧
       files (world s1) !! oldHookPath = files (world s) !! oldHookPath) ∧
  (includes (Hooks.content existing) marker = false →
   ∃ s1 m,
     installGitHook platform join hooksDir hookName content s
       = (Normal (mkInstallResult true), s1) ∧
     calls s1 =
       calls s ++ [ExistsSync hookPath; ReadFileSync hookPath;
                   ExistsSync hookPath; ReadFileSync hookPath;
                   RenameSync hookPath oldHookPath;
                   WriteFileSync hookPath content] ++ chmodCalls platform hookPath ∧
     files (world s1) !! hookPath = Some (mkFile content m) ∧
     files (world s1) !! oldHookPath = Some existing).
Proof.
  intros hookPath oldHookPath Hfile.
  assert (Hne : hookPath ≠ oldHookPath).
  { intros H. symmetry in H. exact (old_path_differs _ H). }
  split.
  - intros Hown vo vn Hvo Hvn Hlt.
    assert (Holder : older (Hooks.content existing) content = true).
    { unfold older. rewrite Hvo, Hvn.
      rewrite (matchVersion_truthy _ _ Hvo), (matchVersion_truthy _ _ Hvn). exact Hlt. }
    destruct (installed_lookup platform join hooksDir hookName content
                (unlinked hookPath (world s))) as [m Hm].
    eexists _, m. split; [|split; [|split]].
    + exact (installGitHook_own_older platform join hooksDir hookName content
               s existing Hfile Hown Holder).
    + reflexivity.
    + exact Hm.
    + cbn [world]. rewrite (installed_lookup_ne platform join hooksDir hookName content
                              _ oldHookPath Hne).
      unfold unlinked. simpl. by rewrite lookup_delete_ne.
  - intros Hforeign.
    destruct (installed_lookup platform join hooksDir hookName content
                (renamed hookPath oldHookPath existing (world s))) as [m Hm].
    eexists _, m. split; [|split; [|split]].
    + exact (installGitHook_foreign platform join hooksDir hookName content
               s existing Hfile Hforeign).
    + reflexivity.
    + exact Hm.
    + cbn [world]. rewrite (installed_lookup_ne platform join hooksDir hookName content
                              _ oldHookPath Hne).
      unfold renamed. simpl. by rewrite lookup_insert_eq.
Qed.

Lemma installGitHook_replaces_own_backs_up_foreign_witness :
  ∃ s1 m,
    installGitHook "linux" Mock.posix_join "/repo/.git/hooks" "pre-commit"
      (generatePreCommitHook "1") foreignHooksDir
      = (Normal (mkInstallResult true), s1) ∧
    calls s1 =
      calls foreignHooksDir ++
      [ExistsSync "/repo/.git/hooks/pre-commit";
       ReadFileSync "/repo/.git/hooks/pre-commit";
       ExistsSync "/repo/.git/hooks/pre-commit";
       ReadFileSync "/repo/.git/hooks/pre-commit";
       RenameSync "/repo/.git/hooks/pre-commit" "/repo/.git/hooks/pre-commit.old";
       WriteFileSync "/repo/.git/hooks/pre-commit" (generatePreCommitHook "1")]
      ++ chmodCalls "linux" "/repo/.git/hooks/pre-commit" ∧
    files (world s1) !! "/repo/.git/hooks/pre-commit"
      = Some (mkFile (generatePreCommitHook "1") m) ∧
    files (world s1) !! "/repo/.git/hooks/pre-commit.old" = Some foreignHook.
Proof.
  destruct (installGitHook_replaces_own_backs_up_foreign "linux" Mock.posix_join
              "/repo/.git/hooks" "pre-commit" (generatePreCommitHook "1")
              foreignHooksDir foreignHook) as [_ Hforeign].
  - vm_compute. reflexivity.
  - apply Hforeign. vm_compute. reflexivity.
Defined.

(** C2 as stated fails from 2^53 on: version 9007199254740992 is strictly
    smaller than version 9007199254740993, yet both are the same number, and
    the installed hook is neither deleted nor rewritten. *)
Lemma installGitHook_version_beyond_double_precision :
  let existing := generatePreCommitHook "9007199254740992" in
  let content := generatePreCommitHook "9007199254740993" in
  includes existing marker = true ∧
  matchVersion existing = Some "9007199254740992" ∧
  matchVersion content = Some "9007199254740993" ∧
  digitsValue 0 "9007199254740992" < digitsValue 0 "9007199254740993" ∧
  installGitHook "linux" Mock.posix_join "/repo/.git/hooks" "pre-commit" content
    hugeVersionHooksDir
  = (Normal (mkInstallResult false),
     mkState (world hugeVersionHooksDir)
       [ExistsSync "/repo/.git/hooks/pre-commit";
        ReadFileSync "/repo/.git/hooks/pre-commit";
        ExistsSync "/repo/.git/hooks/pre-commit";
        ReadFileSync "/repo/.git/hooks/pre-commit"]).
Proof. repeat split; vm_compute; reflexivity. Qed.

(** C8. A content without a version line is installed by every call,
    whether it carries the product marker or not: whatever the hook file
    holds, the same text included, [installGitHook] returns
    [{updated:true}] and writes the file. *)
Theorem installGitHook_unversioned_always_updates
    (platform : string) (join : string → string → string)
    (hooksDir hookName content : string) (s : State Disk) :
  let hookPath := join hooksDir hookName in
  matchVersion content = None →
  ∃ s1 before after m,
    installGitHook platform join hooksDir hookName content s
      = (Normal (mkInstallResult true), s1) ∧
    calls s1 = calls s ++ before ++ WriteFileSync hookPath content :: after ∧
    files (world s1) !! hookPath = Some (mkFile content m).
Proof.
  intros hookPath Hversion.
  destruct (files (world s) !! hookPath) as [f|] eqn:Hfile.
  - destruct (includes (Hooks.content f) marker) eqn:Hown.
    + assert (Holder : older (Hooks.content f) content = true).
      { unfold older. rewrite Hversion. simpl. by rewrite orb_true_r. }
      destruct (installed_lookup platform join hooksDir hookName content
                  (unlinked hookPath (world s))) as [m Hm].
      eexists _, _, _, m. split; [|split].
      * exact (installGitHook_own_older platform join hooksDir hookName content
                 s f Hfile Hown Holder).
      * cbn [calls].
        exact (eq_refl (calls s ++
                 [ExistsSync hookPath; ReadFileSync hookPath;
                  ExistsSync hookPath; ReadFileSync hookPath;
                  ExistsSync hookPath; ReadFileSync hookPath; UnlinkSync hookPath]
                 ++ WriteFileSync hookPath content :: chmodCalls platform hookPath)).
      * exact Hm.
    + destruct (installed_lookup platform join hooksDir hookName content
                  (renamed hookPath (hookPath +:+ ".old") f (world s))) as [m Hm].
      eexists _, _, _, m. split; [|split].
      * exact (installGitHook_foreign platform join hooksDir hookName content
                 s f Hfile Hown).
      * cbn [calls].
        exact (eq_refl (calls s ++
                 [ExistsSync hookPath; ReadFileSync hookPath;
                  ExistsSync hookPath; ReadFileSync hookPath;
                  RenameSync hookPath (hookPath +:+ ".old")]
                 ++ WriteFileSync hookPath content :: chmodCalls platform hookPath)).
      * exact Hm.
  - destruct (installed_lookup platform join hooksDir hookName content (world s))
      as [m Hm].
    eexists _, _, _, m. split; [|split].
    + exact (installGitHook_absent platform join hooksDir hookName content s Hfile).
    + cbn [calls].
      exact (eq_refl (calls s ++ [ExistsSync hookPath; ExistsSync hookPath]
               ++ WriteFileSync hookPath content :: chmodCalls platform hookPath)).
    + exact Hm.
Qed.

Lemma installGitHook_unversioned_always_updates_witness :
  ∃ s1 before after m,
    installGitHook "linux" Mock.posix_join "/repo/.git/hooks" "pre-commit"
      unversioned unversionedHooksDir
      = (Normal (mkInstallResult true), s1) ∧
    calls s1 = calls unversionedHooksDir ++ before ++
               WriteFileSync "/repo/.git/hooks/pre-commit" unversioned :: after ∧
    files (world s1) !! "/repo/.git/hooks/pre-commit" = Some (mkFile unversioned m).
Proof.
  apply (installGitHook_unversioned_always_updates "linux" Mock.posix_join
           "/repo/.git/hooks" "pre-commit" unversioned unversionedHooksDir).
  vm_compute. reflexivity.
Defined.

End HooksSpec.

(** * Further properties *)

(** ** platform.ts, further *)

Module PlatformMore.

Import Platform Logs Walk MonadFacts LogFacts PlatformSpec.

(** X1. [removeReadOnly] keeps to one strategy per platform, whatever the
    calls answer.  Off win32 it makes one call in all: the recursive chmod
    through [execSync].  On win32 it never calls [execSync]: it only probes,
    lists, and sets mode 0o666. *)
Theorem removeReadOnly_strategy {W} (node : Node W) stack dirPath (s : State W) :
  (process_platform node ≠ "win32" →
   calls (snd (removeReadOnly node stack dirPath s)) =
   calls s ++ [ExecSync ("chmod -R 755 " +:+ dquote +:+ dirPath +:+ dquote)]) ∧
  (process_platform node = "win32" →
   ∃ added,
     calls (snd (removeReadOnly node stack dirPath s)) = calls s ++ added ∧
     Forall walkCall added).
Proof.
  unfold removeReadOnly, isWindows. split.
  - intros Hunix.
    destruct (String.eqb (process_platform node) "win32") eqn:E;
      [apply String.eqb_eq in E; congruence|].
    simpl. rewrite try_catch_swallow_state. unfold bind, execSync, call.
    by destruct (child_process_execSync node _ (world s)) as [[out|e] w'].
  - intros Hwin. apply String.eqb_eq in Hwin. rewrite Hwin. simpl.
    rewrite try_catch_swallow_state. apply logs_removeReadOnlyRecursive.
Qed.

Lemma removeReadOnly_strategy_witness :
  ∃ added,
    calls (snd (removeReadOnly (Mock.node Scenarios.lockedTree) 8 "/t" Mock.start))
      = calls Mock.start ++ added ∧
    Forall walkCall added.
Proof.
  apply (removeReadOnly_strategy (Mock.node Scenarios.lockedTree) 8 "/t" Mock.start).
  reflexivity.
Defined.

Section StableTree.
Context {W : Type} (node : Node W).
Context (ex : string → bool) (ls : string → result (list Dirent)) (ch : string → result unit).
Context (Hstable : answersBy node ex ls ch).

Let join := path_join node.

Lemma visitEntry_trace recurse dir entry (s : State W) (T : list Call) :
  (∀ s1 : State W, calls (snd (recurse (join dir (name entry)) s1)) = calls s1 ++ T) →
  calls (snd (visitEntry node recurse dir entry s)) =
  calls s ++
  ChmodSync (join dir (name entry)) (ModeNumber 438) ::
  match ch (join dir (name entry)) with
  | Ok _ => if isDirectory entry then T else []
  | Err _ => []
  end.
Proof.
  intros Hrec. destruct Hstable as (_ & _ & Hch).
  unfold visitEntry. rewrite try_catch_swallow_state.
  unfold bind, chmodSync, call. fold join.
  specialize (Hch (join dir (name entry)) (world s)).
  destruct (fs_chmodSync node (join dir (name entry)) (ModeNumber 438) (world s))
    as [r w'].
  simpl in Hch. rewrite <- Hch. destruct r as [[]|e]; [|reflexivity].
  destruct (isDirectory entry); simpl.
  - rewrite Hrec. simpl. by rewrite <- app_assoc.
  - reflexivity.
Qed.

Lemma for_of_trace recurse dir entries (s : State W) (T : string → list Call) :
  (∀ p, no_exit (recurse p)) →
  (∀ p (s1 : State W), calls (snd (recurse p s1)) = calls s1 ++ T p) →
  calls (snd (for_of entries (visitEntry node recurse dir) s)) =
  calls s ++
  flat_map
    (fun e =>
       ChmodSync (join dir (name e)) (ModeNumber 438) ::
       match ch (join dir (name e)) with
       | Ok _ => if isDirectory e then T (join dir (name e)) else []
       | Err _ => []
       end)
    entries.
Proof.
  intros Hexit Hrec. revert s. induction entries as [|e rest IH]; intros s; simpl.
  - by rewrite app_nil_r.
  - unfold bind.
    pose proof (visitEntry_trace recurse dir e s (T (join dir (name e)))
                  (Hrec (join dir (name e)))) as Hvisit.
    destruct (for_of_visitEntry_normal node recurse dir [e] s Hexit) as [s1 Hs1].
    simpl in Hs1. unfold bind in Hs1.
    destruct (visitEntry node recurse dir e s) as [[[]|err|code] s2]; simpl in *.
    + rewrite IH, Hvisit. by rewrite <- !app_assoc.
    + discriminate.
    + discriminate.
Qed.

(** On a tree that holds still, the walk makes the calls of [walkTrace]. *)
Lemma removeReadOnlyRecursive_trace stack dir (s : State W) :
  calls (snd (removeReadOnlyRecursive node stack dir s)) =
  calls s ++ walkTrace join ex ls ch stack dir.
Proof.
  revert dir s. induction stack as [|stack' IH]; intros dir s; simpl.
  - by rewrite app_nil_r.
  - destruct Hstable as (Hex & Hls & _).
    unfold bind at 1. unfold existsSync, call.
    specialize (Hex dir (world s)).
    destruct (fs_existsSync node dir (world s)) as [r w1]. simpl in Hex. subst r.
    destruct (ex dir); simpl; [|reflexivity].
    unfold bind at 1. unfold readdirSync, call. simpl.
    specialize (Hls dir w1).
    destruct (fs_readdirSync node dir w1) as [r w2]. simpl in Hls. rewrite <- Hls.
    destruct r as [entries|e]; simpl; [|by rewrite <- app_assoc].
    rewrite (for_of_trace (removeReadOnlyRecursive node stack') dir entries _
               (walkTrace join ex ls ch stack')).
    + simpl. by rewrite <- !app_assoc.
    + intros p. apply no_exit_removeReadOnlyRecursive.
    + intros p s1. apply IH.
Qed.

End StableTree.

Section TraceFacts.
Context (join : string → string → string).
Context (ex : string → bool) (ls : string → result (list Dirent)) (ch : string → result unit).

(** The mode changes of the trace are the entries within reach. *)
Lemma walkTrace_within stack dir p m :
  In (ChmodSync p m) (walkTrace join ex ls ch stack dir) ↔
  m = ModeNumber 438 ∧ within join ex ls ch stack dir p.
Proof.
  revert dir. induction stack as [|stack' IH]; intros dir; simpl.
  - split; [done|]. intros [_ H]. inversion H.
  - split.
    + intros [H|H]; [discriminate|].
      destruct (ex dir) eqn:Hex; [|done].
      destruct H as [H|H]; [discriminate|].
      destruct (ls dir) as [entries|err] eqn:Hls; [|done].
      apply in_flat_map in H as (e & He & [H|H]).
      * injection H as <- <-. split; [done|]. by eapply within_entry.
      * destruct (ch (join dir (name e))) as [[]|err] eqn:Hch; [|done].
        destruct (isDirectory e) eqn:Hd; [|done].
        apply IH in H as [-> H]. split; [done|]. by eapply within_deeper.
    + intros [-> H]. right. inversion H as [n d entries e Hex Hls He | n d entries e q Hex Hls He Hd Hch Hq]; subst.
      * rewrite Hex, Hls. right. apply in_flat_map. exists e. split; [done|]. by left.
      * rewrite Hex, Hls. right. apply in_flat_map. exists e. split; [done|].
        right. rewrite Hch, Hd. apply IH. by split.
Qed.

End TraceFacts.

(** X2. On win32, over a tree that holds still while it is walked, the
    paths whose mode [removeReadOnly] sets are exactly the entries within
    [stack] levels below [dirPath] that can be reached through directories
    that exist, can be listed and could be made writable: each of them is
    attempted, with mode 0o666, and no other path is. *)
Theorem removeReadOnly_covers_tree {W} (node : Node W)
    (ex : string → bool) (ls : string → result (list Dirent)) (ch : string → result unit)
    stack dirPath (s : State W) :
  process_platform node = "win32" →
  answersBy node ex ls ch →
  ∃ added,
    calls (snd (removeReadOnly node stack dirPath s)) = calls s ++ added ∧
    ∀ p m, In (ChmodSync p m) added ↔
           m = ModeNumber 438 ∧ within (path_join node) ex ls ch stack dirPath p.
Proof.
  intros Hwin Hstable. exists (walkTrace (path_join node) ex ls ch stack dirPath).
  split.
  - unfold removeReadOnly, isWindows. apply String.eqb_eq in Hwin. rewrite Hwin. simpl.
    rewrite try_catch_swallow_state.
    by apply removeReadOnlyRecursive_trace.
  - intros p m. apply walkTrace_within.
Qed.

Lemma removeReadOnly_covers_tree_witness :
  ∃ added,
    calls (snd (removeReadOnly (Mock.node Scenarios.unlockedTree) 8 "/t" Mock.start))
      = calls Mock.start ++ added ∧
    ∀ p m, In (ChmodSync p m) added ↔
           m = ModeNumber 438 ∧
           within (path_join (Mock.node Scenarios.unlockedTree))
             (Mock.existsAnswer Scenarios.unlockedTree)
             (Mock.readdirAnswer Scenarios.unlockedTree)
             (fun p => Mock.chmodAnswer Scenarios.unlockedTree p (ModeNumber 438))
             8 "/t" p.
Proof.
  apply (removeReadOnly_covers_tree (Mock.node Scenarios.unlockedTree)).
  - reflexivity.
  - repeat split; intros; reflexivity.
Defined.

End PlatformMore.

(** ** hooks.ts, further *)

Module HooksMoreSpec.

Import Scenarios MoreScenarios Hooks HooksMore MonadFacts HooksSpec.

(** *** The generated scripts are read back as own hooks of their version *)

Lemma takeDigits_onlyDigits v : onlyDigits v = true → takeDigits v = v.
Proof.
  induction v as [|c v IH]; simpl; [done|].
  intros [Hc Hv]%andb_true_iff. rewrite Hc. by rewrite IH.
Qed.

Lemma takeDigits_app v c rest :
  onlyDigits v = true → isDigit c = false →
  takeDigits (v +:+ String c rest) = v.
Proof.
  intros Hv Hc. induction v as [|a v IH]; simpl.
  - by rewrite Hc.
  - simpl in Hv. apply andb_true_iff in Hv as [Ha Hv]. rewrite Ha. by rewrite IH.
Qed.

(** Where no capital V occurs, no version line starts. *)
Lemma matchVersion_skip pre s :
  lacks "V" pre = true → matchVersion (pre +:+ s) = matchVersion s.
Proof.
  induction pre as [|c pre IH]; [done|]. cbn [lacks].
  intros [Hc Hpre]%andb_true_iff. rewrite matchVersion_unfold.
  change (String c pre +:+ s) with (String c (pre +:+ s)). cbn [stripPrefix].
  destruct (Ascii.eqb "V" c) eqn:E; [discriminate Hc|]. by apply IH.
Qed.

Lemma matchVersion_here v c rest :
  onlyDigits v = true → v ≠ EmptyString → isDigit c = false →
  matchVersion ("Version: " +:+ v +:+ String c rest) = Some v.
Proof.
  intros Hv Hne Hc. rewrite matchVersion_unfold.
  change (stripPrefix "Version: " ("Version: " +:+ v +:+ String c rest))
    with (Some (v +:+ String c rest)).
  cbv beta iota. rewrite (takeDigits_app v c rest Hv Hc). by destruct v.
Qed.

Lemma prefix_app sub a b :
  String.prefix sub a = true → String.prefix sub (a +:+ b) = true.
Proof.
  revert a. induction sub as [|c sub IH]; intros a;
    [intros _; by destruct (a +:+ b)|].
  destruct a as [|c' a]; simpl; [done|].
  destruct (ascii_dec c c'); [apply IH | done].
Qed.

Lemma includes_app sub a b : includes a sub = true → includes (a +:+ b) sub = true.
Proof.
  induction a as [|c a IH]; intros H.
  - cbn [includes] in H. rewrite orb_false_r in H.
    destruct sub; [|simpl in H; discriminate].
    destruct b; reflexivity.
  - change (String c a +:+ b) with (String c (a +:+ b)).
    cbn [includes] in *. apply orb_true_iff in H as [H|H]; apply orb_true_iff.
    + left. exact (prefix_app sub (String c a) b H).
    + right. by apply IH.
Qed.

(** X3. A script generated for a version of digits is read back by the
    installer as an own hook of that version: it carries the product
    marker, and the version pattern yields the digits it was generated
    with.  This holds for the pre-commit and for the post-commit script. *)
Theorem generated_hooks_read_back (version : string) :
  onlyDigits version = true → version ≠ EmptyString →
  (includes (generatePreCommitHook version) marker = true ∧
   matchVersion (generatePreCommitHook version) = Some version) ∧
  (includes (generatePostCommitHook version) marker = true ∧
   matchVersion (generatePostCommitHook version) = Some version).
Proof.
  intros Hdigits Hne. split; split.
  - unfold generatePreCommitHook.
    apply includes_app. vm_compute. reflexivity.
  - unfold generatePreCommitHook.
    match goal with
    | |- matchVersion (_ +:+ version +:+ String ?c ?rest) = _ =>
        change (matchVersion
                  (("#!/usr/bin/env node" +:+ String (ascii_of_nat 10)
                      "// HumanLayer thoughts protection - prevent committing thoughts directory"
                    +:+ String (ascii_of_nat 10) "// ")
                   +:+ ("Version: " +:+ version +:+ String c rest)) = Some version)
    end.
    rewrite matchVersion_skip by (vm_compute; reflexivity).
    by apply matchVersion_here.
  - unfold generatePostCommitHook.
    apply includes_app. vm_compute. reflexivity.
  - unfold generatePostCommitHook.
    match goal with
    | |- matchVersion (_ +:+ version +:+ String ?c ?rest) = _ =>
        change (matchVersion
                  (("#!/usr/bin/env node" +:+ String (ascii_of_nat 10)
                      "// HumanLayer thoughts auto-sync"
                    +:+ String (ascii_of_nat 10) "// ")
                   +:+ ("Version: " +:+ version +:+ String c rest)) = Some version)
    end.
    rewrite matchVersion_skip by (vm_compute; reflexivity).
    by apply matchVersion_here.
Qed.

Lemma generated_hooks_read_back_witness :
  (includes (generatePreCommitHook "42") marker = true ∧
   matchVersion (generatePreCommitHook "42") = Some "42") ∧
  (includes (generatePostCommitHook "42") marker = true ∧
   matchVersion (generatePostCommitHook "42") = Some "42").
Proof.
  apply (generated_hooks_read_back "42"); [reflexivity | discriminate].
Defined.

(** *** One installation, in full *)

Section OneInstall.
Context (platform : string) (join : string → string → string).
Context (hooksDir hookName content : string).

Let hookPath := join hooksDir hookName.

(** Every run of [installGitHook]: its result, the disk and the calls. *)
Lemma installGitHook_run (s : State Disk) :
  installGitHook platform join hooksDir hookName content s =
  (Normal (mkInstallResult (decides (world s) hookPath content)),
   mkState (if decides (world s) hookPath content
            then installedDisk platform hookPath content (world s)
            else world s)
           (calls s ++ installCalls platform hookPath content (world s))).
Proof.
  unfold decides, installedDisk, installCalls.
  destruct (files (world s) !! hookPath) as [f|] eqn:Hfile.
  - destruct (includes (Hooks.content f) marker) eqn:Hown; simpl.
    + destruct (older (Hooks.content f) content) eqn:Holder.
      * exact (installGitHook_own_older platform join hooksDir hookName content
                 s f Hfile Hown Holder).
      * exact (installGitHook_own_current platform join hooksDir hookName content
                 s f Hfile Hown Holder).
    + exact (installGitHook_foreign platform join hooksDir hookName content
               s f Hfile Hown).
  - exact (installGitHook_absent platform join hooksDir hookName content s Hfile).
Qed.

Lemma decides_outdated (d : Disk) :
  decides d hookPath content = true ↔ outdated d hookPath content.
Proof.
  unfold decides, outdated. destruct (files d !! hookPath) as [f|]; [|done].
  rewrite orb_true_iff, negb_true_iff. tauto.
Qed.

Lemma installedDisk_lookup (d : Disk) :
  files (installedDisk platform hookPath content d) !! hookPath =
  Some (mkFile content
          (if String.eqb platform "win32" || chmod_refused d
           then ModeNumber 420 else ModeString "755")).
Proof.
  unfold installedDisk, markedExecutable.
  set (d' := match files d !! hookPath with
             | None => d
             | Some f => if negb (includes (Hooks.content f) marker)
                         then renamed hookPath (hookPath +:+ ".old") f d
                         else unlinked hookPath d
             end).
  assert (Hgone : files d' !! hookPath = None).
  { unfold d'. destruct (files d !! hookPath) as [f|] eqn:Hfile; [|done].
    destruct (negb (includes (Hooks.content f) marker)); simpl.
    - rewrite lookup_insert_ne by apply old_path_differs. apply lookup_delete_eq.
    - apply lookup_delete_eq. }
  assert (Hrefused : chmod_refused d' = chmod_refused d).
  { unfold d'. destruct (files d !! hookPath) as [f|]; [|done].
    by destruct (negb (includes (Hooks.content f) marker)). }
  unfold written. rewrite Hgone. simpl. rewrite Hrefused.
  destruct (String.eqb platform "win32"); simpl; [apply lookup_insert_eq|].
  destruct (chmod_refused d); simpl; [apply lookup_insert_eq|].
  rewrite lookup_insert_eq. simpl. apply lookup_insert_eq.
Qed.

Lemma installedDisk_frame (d : Disk) q :
  q ≠ hookPath → q ≠ hookPath +:+ ".old" →
  files (installedDisk platform hookPath content d) !! q = files d !! q.
Proof.
  intros Hq Hold. unfold installedDisk.
  rewrite lookup_markedExecutable_ne, lookup_written_ne by done.
  destruct (files d !! hookPath) as [f|]; [|done].
  destruct (negb (includes (Hooks.content f) marker)); simpl.
  - rewrite lookup_insert_ne by done. by rewrite lookup_delete_ne.
  - by rewrite lookup_delete_ne.
Qed.

Lemma installGitHook_untouched (s : State Disk) q :
  q ≠ hookPath → q ≠ hookPath +:+ ".old" →
  files (world (snd (installGitHook platform join hooksDir hookName content s))) !! q
  = files (world s) !! q.
Proof.
  intros Hq Hold. rewrite installGitHook_run. simpl.
  destruct (decides (world s) hookPath content); [|done].
  by apply installedDisk_frame.
Qed.

(** Once [content], which carries the marker and a version, has been
    offered, the hook is not in need of it any more. *)
Lemma decides_after (s : State Disk) v :
  includes content marker = true → matchVersion content = Some v →
  decides (world (snd (installGitHook platform join hooksDir hookName content s)))
    hookPath content = false.
Proof.
  intros Hmarker Hversion. rewrite installGitHook_run. simpl.
  destruct (decides (world s) hookPath content) eqn:E; [|exact E].
  unfold decides. rewrite installedDisk_lookup. simpl. rewrite Hmarker. simpl.
  unfold older. rewrite Hversion, (matchVersion_truthy _ _ Hversion). simpl.
  apply lt_irrefl.
Qed.

End OneInstall.

(** X4. Over a hooks directory that exists, with a regular file or nothing
    at the hook path: [installGitHook] returns [{updated:true}] exactly when
    the hook is missing, foreign or older; then the hook file holds the new
    content.  When it returns [{updated:false}] the disk is as before.  Each
    read, rename and deletion is behind its own existence check, so that on
    such a disk none of them fails. *)
Theorem installGitHook_postcondition
    (platform : string) (join : string → string → string)
    (hooksDir hookName content : string) (s : State Disk) :
  let hookPath := join hooksDir hookName in
  ∃ b s',
    installGitHook platform join hooksDir hookName content s
      = (Normal (mkInstallResult b), s') ∧
    (b = true ↔ outdated (world s) hookPath content) ∧
    (b = true → ∃ m, files (world s') !! hookPath = Some (mkFile content m)) ∧
    (b = false → world s' = world s).
Proof.
  intros hookPath. subst hookPath.
  eexists _, _. split; [apply installGitHook_run|].
  split; [apply decides_outdated|]. split.
  - intros Hb. simpl. rewrite Hb, installedDisk_lookup. eauto.
  - intros Hb. simpl. by rewrite Hb.
Qed.

(** X5. [installGitHook] touches two paths at most: the hook and its
    [.old] backup.  Every other file of the disk is after the call what it
    was before, whatever the call did. *)
Theorem installGitHook_frame
    (platform : string) (join : string → string → string)
    (hooksDir hookName content : string) (s : State Disk) (q : string) :
  let hookPath := join hooksDir hookName in
  q ≠ hookPath → q ≠ hookPath +:+ ".old" →
  files (world (snd (installGitHook platform join hooksDir hookName content s))) !! q
  = files (world s) !! q.
Proof.
  intros hookPath Hq Hold. by apply installGitHook_untouched.
Qed.

Lemma installGitHook_frame_witness :
  files (world (snd (installGitHook "linux" Mock.posix_join "/repo/.git/hooks"
                       "pre-commit" (generatePreCommitHook "4") foreignHooksDir)))
    !! "/repo/.git/hooks/post-commit"
  = files (world foreignHooksDir) !! "/repo/.git/hooks/post-commit".
Proof.
  apply (installGitHook_frame "linux" Mock.posix_join "/repo/.git/hooks" "pre-commit"
           (generatePreCommitHook "4") foreignHooksDir "/repo/.git/hooks/post-commit");
    discriminate.
Defined.

(** X6. The mode of an installed hook.  A hook that [installGitHook]
    writes is a new file; it ends with mode 755, except on win32, where no
    mode change is attempted, and on a file system that refuses the change,
    where the refusal is swallowed: there it keeps the mode it was created
    with.  The result is [{updated:true}] in each case. *)
Theorem installGitHook_mode
    (platform : string) (join : string → string → string)
    (hooksDir hookName content : string) (s : State Disk) :
  let hookPath := join hooksDir hookName in
  outdated (world s) hookPath content →
  ∃ s' added,
    installGitHook platform join hooksDir hookName content s
      = (Normal (mkInstallResult true), s') ∧
    files (world s') !! hookPath =
      Some (mkFile content
              (if String.eqb platform "win32" || chmod_refused (world s)
               then ModeNumber 420 else ModeString "755")) ∧
    calls s' = calls s ++ added ∧
    (platform = "win32" → ∀ p m, ¬ In (ChmodSync p m) added).
Proof.
  intros hookPath Hout. subst hookPath. apply decides_outdated in Hout.
  eexists _, _. split; [|split; [|split]].
  - rewrite installGitHook_run, Hout. reflexivity.
  - simpl. apply installedDisk_lookup.
  - reflexivity.
  - intros -> p m H.
    unfold installCalls, chmodCalls in H. simpl in H.
    destruct (files (world s) !! join hooksDir hookName) as [f|].
    + destruct (negb (includes (Hooks.content f) marker)).
      * simpl in H. intuition discriminate.
      * destruct (older (Hooks.content f) content);
          simpl in H; intuition discriminate.
    + simpl in H. intuition discriminate.
Qed.

(** A file system that refuses mode changes. *)
Lemma installGitHook_mode_witness :
  ∃ s' added,
    installGitHook "linux" Mock.posix_join "/repo/.git/hooks" "pre-commit"
      (generatePreCommitHook "4") refusingHooksDir
      = (Normal (mkInstallResult true), s') ∧
    files (world s') !! "/repo/.git/hooks/pre-commit" =
      Some (mkFile (generatePreCommitHook "4") (ModeNumber 420)) ∧
    calls s' = calls refusingHooksDir ++ added ∧
    ("linux" = "win32" → ∀ p m, ¬ In (ChmodSync p m) added).
Proof.
  apply (installGitHook_mode "linux" Mock.posix_join "/repo/.git/hooks" "pre-commit"
           (generatePreCommitHook "4") refusingHooksDir).
  vm_compute. exact I.
Defined.

(** A version below 2^53 is parsed as the integer it spells. *)
Lemma parseInt_version text v :
  matchVersion text = Some v → digitsValue 0 v < 2 ^ 53 →
  parseInt v = Finite (digitsValue 0 v).
Proof.
  intros Hv Hbound. unfold parseInt. rewrite (matchVersion_digits _ _ Hv).
  pose proof (matchVersion_truthy _ _ Hv) as Hne.
  destruct v as [|c v]; [discriminate|]. by apply toNumber_exact.
Qed.

(** X7. [installGitHook] never downgrades and never rewrites an own hook of
    the same version: over an own hook of version [vo] below 2^53, a content
    of version [vn] not above [vo] is not installed.  The call returns
    [{updated:false}], makes four reads and leaves the disk as it is. *)
Theorem installGitHook_never_downgrades
    (platform : string) (join : string → string → string)
    (hooksDir hookName content : string) (s : State Disk)
    (existing : File) (vo vn : string) :
  let hookPath := join hooksDir hookName in
  files (world s) !! hookPath = Some existing →
  includes (Hooks.content existing) marker = true →
  matchVersion (Hooks.content existing) = Some vo →
  matchVersion content = Some vn →
  digitsValue 0 vn ≤ digitsValue 0 vo →
  digitsValue 0 vo < 2 ^ 53 →
  installGitHook platform join hooksDir hookName content s =
  (Normal (mkInstallResult false),
   mkState (world s)
           (calls s ++ [ExistsSync hookPath; ReadFileSync hookPath;
                        ExistsSync hookPath; ReadFileSync hookPath])).
Proof.
  intros hookPath Hfile Hown Hvo Hvn Hle Hbound.
  apply (installGitHook_own_current platform join hooksDir hookName content
           s existing Hfile Hown).
  unfold older. rewrite Hvo, Hvn.
  rewrite (matchVersion_truthy _ _ Hvo), (matchVersion_truthy _ _ Hvn). simpl.
  rewrite (parseInt_version _ _ Hvo Hbound), (parseInt_version _ _ Hvn) by lia.
  simpl. by apply Z.ltb_ge.
Qed.

Lemma installGitHook_never_downgrades_witness :
  installGitHook "linux" Mock.posix_join "/repo/.git/hooks" "pre-commit"
    (generatePreCommitHook "3") newerHooksDir =
  (Normal (mkInstallResult false),
   mkState (world newerHooksDir)
           (calls newerHooksDir ++
            [ExistsSync "/repo/.git/hooks/pre-commit";
             ReadFileSync "/repo/.git/hooks/pre-commit";
             ExistsSync "/repo/.git/hooks/pre-commit";
             ReadFileSync "/repo/.git/hooks/pre-commit"])).
Proof.
  apply (installGitHook_never_downgrades "linux" Mock.posix_join "/repo/.git/hooks"
           "pre-commit" (generatePreCommitHook "3") newerHooksDir
           (mkFile (generatePreCommitHook "4") (ModeString "755")) "4" "3").
  - vm_compute. reflexivity.
  - vm_compute. reflexivity.
  - vm_compute. reflexivity.
  - vm_compute. reflexivity.
  - vm_compute. discriminate.
  - vm_compute. reflexivity.
Defined.

(** *** The installation step of the setup *)

Section Setup.
Context (platform : string) (join : string → string → string) (hooksDir : string).

Let prePath := join hooksDir "pre-commit".
Let postPath := join hooksDir "post-commit".
Let preContent := generatePreCommitHook HOOK_VERSION.
Let postContent := generatePostCommitHook HOOK_VERSION.

Lemma installHooks_run (s : State Disk) :
  installHooks platform join hooksDir s =
  (Normal
     ((if decides (world s) prePath preContent then ["pre-commit"] else []) ++
      (if decides
            (world (snd (installGitHook platform join hooksDir "pre-commit" preContent s)))
            postPath postContent
       then ["post-commit"] else [])),
   snd (installGitHook platform join hooksDir "post-commit" postContent
          (snd (installGitHook platform join hooksDir "pre-commit" preContent s)))).
Proof.
  unfold installHooks. fold preContent postContent.
  unfold bind at 1. rewrite (installGitHook_run platform join hooksDir "pre-commit").
  fold prePath. cbn [snd updated].
  unfold bind at 1. rewrite (installGitHook_run platform join hooksDir "post-commit").
  fold postPath. cbn [snd updated world]. unfold ret.
  by destruct (decides (world s) prePath preContent), (decides _ postPath postContent).
Qed.

Lemma decides_frame (d d' : Disk) hookPath content :
  files d !! hookPath = files d' !! hookPath →
  decides d hookPath content = decides d' hookPath content.
Proof. intros H. unfold decides. by rewrite H. Qed.

Lemma preContent_own :
  includes preContent marker = true ∧ matchVersion preContent = Some "4".
Proof. split; vm_compute; reflexivity. Qed.

Lemma postContent_own :
  includes postContent marker = true ∧ matchVersion postContent = Some "4".
Proof. split; vm_compute; reflexivity. Qed.

End Setup.

(** X8. The installation step of [setupGitHooks] reports exactly the hooks
    that were missing, foreign or older, pre-commit before post-commit,
    wherever the two hooks and the backup of the pre-commit hook are three
    different paths. *)
Theorem installHooks_reports_outdated
    (platform : string) (join : string → string → string) (hooksDir : string)
    (s : State Disk) :
  let prePath := join hooksDir "pre-commit" in
  let postPath := join hooksDir "post-commit" in
  postPath ≠ prePath → postPath ≠ prePath +:+ ".old" →
  ∃ (pre post : bool) s',
    installHooks platform join hooksDir s =
      (Normal ((if pre then ["pre-commit"] else []) ++
               (if post then ["post-commit"] else [])), s') ∧
    (pre = true ↔ outdated (world s) prePath (generatePreCommitHook HOOK_VERSION)) ∧
    (post = true ↔ outdated (world s) postPath (generatePostCommitHook HOOK_VERSION)).
Proof.
  intros prePath postPath Hne Hold. subst prePath postPath.
  eexists _, _, _. split; [apply installHooks_run|]. split.
  - apply decides_outdated.
  - rewrite (decides_frame _ (world s)); [apply decides_outdated|].
    by apply installGitHook_untouched.
Qed.

Lemma installHooks_reports_outdated_witness :
  ∃ (pre post : bool) s',
    installHooks "linux" Mock.posix_join "/repo/.git/hooks" foreignHooksDir =
      (Normal ((if pre then ["pre-commit"] else []) ++
               (if post then ["post-commit"] else [])), s') ∧
    (pre = true ↔ outdated (world foreignHooksDir) "/repo/.git/hooks/pre-commit"
                    (generatePreCommitHook HOOK_VERSION)) ∧
    (post = true ↔ outdated (world foreignHooksDir) "/repo/.git/hooks/post-commit"
                     (generatePostCommitHook HOOK_VERSION)).
Proof.
  apply (installHooks_reports_outdated "linux" Mock.posix_join "/repo/.git/hooks"
           foreignHooksDir); discriminate.
Defined.

(** X9. The installation step of [setupGitHooks] settles: run again on the
    disk it has left, whatever it found and did there, it reports no hook
    and leaves the disk as it is.  This holds wherever the two hooks and the
    backup of the post-commit hook are three different paths. *)
Theorem installHooks_settles
    (platform : string) (join : string → string → string) (hooksDir : string)
    (s : State Disk) :
  let prePath := join hooksDir "pre-commit" in
  let postPath := join hooksDir "post-commit" in
  prePath ≠ postPath → prePath ≠ postPath +:+ ".old" →
  ∃ updated s1 s2,
    installHooks platform join hooksDir s = (Normal updated, s1) ∧
    installHooks platform join hooksDir s1 = (Normal [], s2) ∧
    world s2 = world s1.
Proof.
  intros prePath postPath Hne Hold. subst prePath postPath.
  destruct (installHooks platform join hooksDir s) as [r s1] eqn:H1.
  rewrite installHooks_run in H1. injection H1 as Hr Hs1.
  assert (Hpre : decides (world s1) (join hooksDir "pre-commit")
                   (generatePreCommitHook HOOK_VERSION) = false).
  { rewrite <- Hs1.
    rewrite (decides_frame _ (world (snd (installGitHook platform join hooksDir
                                            "pre-commit"
                                            (generatePreCommitHook HOOK_VERSION) s)))).
    - destruct preContent_own as [Hm Hv].
      exact (decides_after platform join hooksDir "pre-commit" _ s "4" Hm Hv).
    - by apply installGitHook_untouched. }
  assert (Hpost : decides (world s1) (join hooksDir "post-commit")
                    (generatePostCommitHook HOOK_VERSION) = false).
  { rewrite <- Hs1. destruct postContent_own as [Hm Hv].
    exact (decides_after platform join hooksDir "post-commit" _ _ "4" Hm Hv). }
  assert (Hsame : world (snd (installGitHook platform join hooksDir "pre-commit"
                                (generatePreCommitHook HOOK_VERSION) s1)) = world s1).
  { rewrite installGitHook_run. simpl. by rewrite Hpre. }
  subst r. eexists _, s1, _. split; [reflexivity|].
  rewrite installHooks_run. rewrite Hpre, Hsame, Hpost. simpl. split; [reflexivity|].
  rewrite (installGitHook_run platform join hooksDir "post-commit"). simpl.
  by rewrite Hsame, Hpost.
Qed.

Lemma installHooks_settles_witness :
  ∃ updated s1 s2,
    installHooks "linux" Mock.posix_join "/repo/.git/hooks" foreignHooksDir
      = (Normal updated, s1) ∧
    installHooks "linux" Mock.posix_join "/repo/.git/hooks" s1 = (Normal [], s2) ∧
    world s2 = world s1.
Proof.
  apply (installHooks_settles "linux" Mock.posix_join "/repo/.git/hooks" foreignHooksDir);
    discriminate.
Defined.

End HooksMoreSpec.


(** ** The thoughts init command, further *)

Module InitMoreSpec.

Import Hooks HooksMore InitMore MonadFacts HooksSpec.

(** *** [sanitizeDirectoryName] *)

Lemma isNameChar_underscore : isNameChar "_" = true.
Proof. reflexivity. Qed.

(** X10. [sanitizeDirectoryName] yields a name of the same length made of
    letters, digits, underscores and hyphens only; it leaves such a name as
    it is, so sanitising twice is sanitising once. *)
Theorem sanitizeDirectoryName_safe (name : string) :
  allChars isNameChar (sanitizeDirectoryName name) = true ∧
  String.length (sanitizeDirectoryName name) = String.length name ∧
  (allChars isNameChar name = true → sanitizeDirectoryName name = name) ∧
  sanitizeDirectoryName (sanitizeDirectoryName name) = sanitizeDirectoryName name.
Proof.
  assert (Hsafe : ∀ n, allChars isNameChar (sanitizeDirectoryName n) = true).
  { induction n as [|c n IH]; [done|]. cbn [sanitizeDirectoryName allChars].
    rewrite IH, andb_true_r. destruct (isNameChar c) eqn:E; [exact E | reflexivity]. }
  assert (Hfix : ∀ n, allChars isNameChar n = true → sanitizeDirectoryName n = n).
  { induction n as [|c n IH]; [done|]. cbn [sanitizeDirectoryName allChars].
    intros [Hc Hn]%andb_true_iff. by rewrite Hc, IH. }
  split; [apply Hsafe|]. split; [|split; [apply Hfix | apply Hfix, Hsafe]].
  induction name as [|c name IH]; [done|]. cbn [sanitizeDirectoryName String.length].
  by rewrite IH.
Qed.

Example sanitizeDirectoryName_example :
  sanitizeDirectoryName "my app/v2.0" = "my_app_v2_0".
Proof. reflexivity. Qed.

(** *** [updateGitIgnore] *)

Lemma listIncludes_In lines entry :
  listIncludes lines entry = true ↔ In entry lines.
Proof.
  unfold listIncludes. rewrite existsb_exists. split.
  - intros (x & Hx & Heq). apply String.eqb_eq in Heq. by subst.
  - intros H. exists entry. split; [done | apply String.eqb_refl].
Qed.

Lemma listIncludes_app lines more entry :
  listIncludes lines entry = true → listIncludes (lines ++ more) entry = true.
Proof. rewrite !listIncludes_In. intros H. apply in_or_app. by left. Qed.

(** The loop, in one piece: the lines grow by the added entries; every
    entry ends up added or skipped, in the order of the entries; an entry is
    added at most once, and only when it was not a line. *)
Lemma addEntries_spec entries lines added0 skipped0 :
  ∃ added skipped,
    addEntries entries (lines, added0, skipped0) =
      (lines ++ added, added0 ++ added, skipped0 ++ skipped) ∧
    Permutation (added ++ skipped) entries ∧
    NoDup added ∧
    (∀ e, In e added → ¬ In e lines) ∧
    (∀ e, In e entries → In e (lines ++ added)) ∧
    sublist added entries ∧
    sublist skipped entries.
Proof.
  revert lines added0 skipped0.
  induction entries as [|entry rest IH]; intros lines added0 skipped0.
  - exists [], []. simpl. rewrite !app_nil_r. repeat split; try done; constructor.
  - cbn [addEntries]. destruct (listIncludes lines entry) eqn:Hin; simpl.
    + destruct (IH lines added0 (skipped0 ++ [entry]))
        as (added & skipped & Hrun & Hperm & Hnodup & Hnew & Hall & Hadded & Hskipped).
      exists added, (entry :: skipped). rewrite Hrun, <- app_assoc. simpl.
      repeat split; try done.
      * rewrite <- Hperm. symmetry. apply Permutation_middle.
      * intros e [<- | He]; [|by apply Hall].
        apply in_or_app. left. by apply listIncludes_In.
      * by apply sublist_cons.
      * by apply sublist_skip.
    + destruct (IH (lines ++ [entry]) (added0 ++ [entry]) skipped0)
        as (added & skipped & Hrun & Hperm & Hnodup & Hnew & Hall & Hadded & Hskipped).
      exists (entry :: added), skipped. rewrite Hrun, <- !app_assoc. simpl.
      repeat split; try done.
      * by constructor.
      * apply NoDup_cons_2; [|done]. intros He%list_elem_of_In. apply (Hnew entry He).
        apply in_or_app. right. by left.
      * intros e [<- | He] Hl.
        -- apply listIncludes_In in Hl. congruence.
        -- apply (Hnew e He). apply in_or_app. by left.
      * intros e [<- | He].
        -- apply in_or_app. right. by left.
        -- specialize (Hall e He). rewrite <- app_assoc in Hall. exact Hall.
      * by apply sublist_skip.
      * by apply sublist_cons.
Qed.

(** The loop over a longer list goes on from where the shorter one ended. *)
Lemma addEntries_app entries more arrays :
  addEntries (entries ++ more) arrays = addEntries more (addEntries entries arrays).
Proof.
  revert arrays. induction entries as [|entry rest IH]; intros [[lines added] skipped].
  - reflexivity.
  - cbn [app addEntries]. destruct (negb (listIncludes lines entry)); apply IH.
Qed.

(** Whether an entry is new is the same against the lines as they have
    grown and against the lines together with the entries seen. *)
Lemma listIncludes_grown lines entries added skipped e :
  Permutation (added ++ skipped) entries →
  (∀ x, In x entries → In x (lines ++ added)) →
  listIncludes (lines ++ added) e = listIncludes (lines ++ entries) e.
Proof.
  intros Hperm Hall.
  destruct (listIncludes (lines ++ entries) e) eqn:E.
  - apply listIncludes_In. apply listIncludes_In in E.
    apply in_app_or in E as [E | E]; [apply in_or_app; by left | by apply Hall].
  - destruct (listIncludes (lines ++ added) e) eqn:E'; [|done].
    apply listIncludes_In in E'. rewrite <- E. symmetry. apply listIncludes_In.
    apply in_app_or in E' as [E' | E']; apply in_or_app; [by left|]. right.
    apply list_elem_of_In. rewrite <- Hperm. apply list_elem_of_In, in_or_app. by left.
Qed.

(** Entries that are lines already are skipped, all of them. *)
Lemma addEntries_present entries lines added0 skipped0 :
  (∀ e, In e entries → In e lines) →
  addEntries entries (lines, added0, skipped0) = (lines, added0, skipped0 ++ entries).
Proof.
  revert skipped0. induction entries as [|entry rest IH]; intros skipped0 Hall.
  - by rewrite app_nil_r.
  - cbn [addEntries].
    rewrite (proj2 (listIncludes_In lines entry)) by (apply Hall; by left). simpl.
    rewrite IH by (intros e He; apply Hall; by right).
    by rewrite <- app_assoc.
Qed.

Section GitIgnore.
Context (trim : string → string) (join : string → string → string).
Context (repoPath : string) (entries : list string).

Let path := join repoPath ".gitignore".

(** Every run of [updateGitIgnore]: what it returns and what it leaves. *)
Lemma updateGitIgnore_run (s : State Disk) :
  ∃ added skipped,
    addEntries entries (linesOnDisk trim (world s) path, [], []) =
      (linesOnDisk trim (world s) path ++ added, added, skipped) ∧
    updateGitIgnore trim join repoPath entries s =
    (Normal (mkUpdate added skipped),
     match added with
     | [] =>
         mkState (world s)
           (calls s ++ ExistsSync path ::
              match files (world s) !! path with
              | Some _ => [ReadFileSync path]
              | None => []
              end)
     | _ :: _ =>
         let newContent :=
           joinLines (linesOnDisk trim (world s) path ++ added)
           +:+ String newline EmptyString in
         mkState (written path newContent (world s))
           (calls s ++ ExistsSync path ::
              match files (world s) !! path with
              | Some _ => [ReadFileSync path]
              | None => []
              end ++ [WriteFileSync path newContent])
     end).
Proof.
  destruct (addEntries_spec entries (linesOnDisk trim (world s) path) [] [])
    as (added & skipped & Hloop & _).
  simpl in Hloop. exists added, skipped. split; [exact Hloop|].
  unfold updateGitIgnore. fold path. unfold linesOnDisk in *.
  unfold bind at 1. unfold existsSync at 1. unfold call at 1.
  destruct (files (world s) !! path) as [f|] eqn:Hfile.
  - rewrite decide_Some. cbn [world calls].
    unfold bind at 1. unfold readFileSync, call. cbn [world calls]. rewrite Hfile.
    rewrite Hloop. destruct added as [|a added]; simpl.
    + unfold bind, ret. simpl. by rewrite <- app_assoc.
    + unfold bind, writeFileSync, call, ret, written. simpl.
      do 2 f_equal. by rewrite <- !app_assoc.
  - rewrite decide_None. cbn [world calls]. unfold bind at 1. unfold ret at 1.
    rewrite Hloop. destruct added as [|a added]; simpl.
    + unfold bind, ret. reflexivity.
    + unfold bind, writeFileSync, call, ret, written. simpl.
      do 2 f_equal. by rewrite <- !app_assoc.
Qed.

End GitIgnore.

(** *** Writing the lines and reading them back *)

Lemma split_nonempty s : split s ≠ [].
Proof.
  destruct s as [|c s]; simpl; [done|].
  destruct (Ascii.eqb c newline); [done|]. by destruct (split s).
Qed.

(** The pieces of a split hold no line break. *)
Lemma split_lacks s piece : In piece (split s) → lacks newline piece = true.
Proof.
  revert piece. induction s as [|c s IH]; intros piece; simpl.
  - by intros [<- | []].
  - destruct (Ascii.eqb c newline) eqn:E.
    + intros [<- | H]; [done | by apply IH].
    + destruct (split s) as [|first pieces] eqn:Hs.
      * intros [<- | []]. cbn [lacks]. by rewrite Ascii.eqb_sym, E.
      * intros [<- | H].
        -- cbn [lacks]. rewrite Ascii.eqb_sym, E. cbn [negb andb]. apply IH. by left.
        -- apply IH. by right.
Qed.

Lemma split_line line rest :
  lacks newline line = true →
  split (line +:+ String newline rest) = line :: split rest.
Proof.
  induction line as [|c line IH]; intros Hline.
  - reflexivity.
  - cbn [lacks] in Hline. apply andb_true_iff in Hline as [Hc Hline].
    change (String c line +:+ String newline rest)
      with (String c (line +:+ String newline rest)).
    cbn [split]. rewrite Ascii.eqb_sym. apply negb_true_iff in Hc. rewrite Hc.
    by rewrite IH.
Qed.

Lemma append_assoc (a b c : string) : (a +:+ b) +:+ c = a +:+ (b +:+ c).
Proof.
  induction a as [|x a IH]; [done|].
  change (String x ((a +:+ b) +:+ c) = String x (a +:+ (b +:+ c))). by rewrite IH.
Qed.

(** Lines without line breaks, joined and closed by a line break, split
    into themselves and one empty piece. *)
Lemma split_joinLines lines :
  lines ≠ [] → (∀ l, In l lines → lacks newline l = true) →
  split (joinLines lines +:+ String newline EmptyString) = lines ++ [EmptyString].
Proof.
  induction lines as [|line rest IH]; [done|]. intros _ Hlines.
  destruct rest as [|next rest].
  - cbn [joinLines]. rewrite split_line by (apply Hlines; by left). reflexivity.
  - change (joinLines (line :: next :: rest))
      with (line +:+ String newline (joinLines (next :: rest))).
    rewrite append_assoc.
    change (String newline (joinLines (next :: rest)) +:+ String newline EmptyString)
      with (String newline (joinLines (next :: rest) +:+ String newline EmptyString)).
    rewrite split_line by (apply Hlines; by left).
    rewrite IH; [done | done |]. intros l Hl. apply Hlines. by right.
Qed.

Section ReadBack.
Context (trim : string → string) (Hlaws : trimLaws trim).

Lemma readLines_clean content line :
  In line (readLines trim content) → clean trim line.
Proof.
  destruct Hlaws as (Hidem & _ & Hkeeps).
  unfold readLines. rewrite filter_In, in_map_iff.
  intros ((piece & <- & Hpiece) & Htruthy).
  repeat split; [apply Hidem | exact Htruthy |].
  by apply Hkeeps, (split_lacks content).
Qed.

Lemma filter_truthy_clean lines :
  (∀ l, In l lines → clean trim l) →
  List.filter truthy (map trim lines) = lines.
Proof.
  induction lines as [|l rest IH]; [done|]. intros Hclean. simpl.
  destruct (Hclean l) as (Htrim & Htruthy & _); [by left|].
  rewrite Htrim, Htruthy. rewrite IH; [done|]. intros l' Hl'. apply Hclean. by right.
Qed.

(** Clean lines are read back as they were written. *)
Lemma readLines_joinLines lines :
  lines ≠ [] → (∀ l, In l lines → clean trim l) →
  readLines trim (joinLines lines +:+ String newline EmptyString) = lines.
Proof.
  intros Hne Hclean. unfold readLines.
  rewrite split_joinLines; [|done|intros l Hl; by apply Hclean].
  rewrite map_app, List.filter_app, filter_truthy_clean by done. simpl.
  destruct Hlaws as (_ & -> & _). simpl. apply app_nil_r.
Qed.

End ReadBack.

(** X11. Over a repository whose [.gitignore] is a regular file or is
    missing: each entry is reported once, as added or as skipped, and both
    lists keep the order in which the entries were passed; an added entry
    was not a line of the file and is added once even if it is passed twice.
    Entry by entry: one more entry at the end goes to the skipped ones if it
    is a line of the file or one of the entries before it, and to the added
    ones otherwise, and changes nothing for the entries before it.  When
    nothing is added the disk is left as it is; otherwise the file is
    rewritten as its lines, trimmed and without the empty ones, followed by
    the added entries, one per line. *)
Theorem updateGitIgnore_partition
    (trim : string → string) (join : string → string → string)
    (repoPath : string) (entries : list string) (s : State Disk) :
  let path := join repoPath ".gitignore" in
  let lines := linesOnDisk trim (world s) path in
  ∃ result s',
    updateGitIgnore trim join repoPath entries s = (Normal result, s') ∧
    Permutation (added result ++ skipped result) entries ∧
    sublist (added result) entries ∧
    sublist (skipped result) entries ∧
    NoDup (added result) ∧
    (∀ e, In e (added result) → ¬ In e lines) ∧
    (∀ e, In e (skipped result) → In e (lines ++ added result)) ∧
    (∀ e, ∃ s1,
       updateGitIgnore trim join repoPath (entries ++ [e]) s =
       (Normal (if listIncludes (lines ++ entries) e
                then mkUpdate (added result) (skipped result ++ [e])
                else mkUpdate (added result ++ [e]) (skipped result)), s1)) ∧
    (added result = [] → world s' = world s) ∧
    (added result ≠ [] →
     ∃ m, files (world s') !! path =
          Some (mkFile (joinLines (lines ++ added result) +:+ String newline EmptyString) m)).
Proof.
  intros path lines. subst path lines.
  set (path := join repoPath ".gitignore").
  set (lines := linesOnDisk trim (world s) path).
  destruct (updateGitIgnore_run trim join repoPath entries s)
    as (added & skipped & Hloop & Hrun).
  destruct (addEntries_spec entries lines [] [])
    as (added' & skipped' & Hloop' & Hperm & Hnodup & Hnew & Hall & Hadded & Hskipped).
  fold path in Hloop, Hrun. fold lines in Hloop, Hrun.
  rewrite Hloop in Hloop'. simpl in Hloop'. injection Hloop' as _ -> ->.
  eexists _, _. split; [exact Hrun|]. cbn [InitMore.added InitMore.skipped].
  split; [exact Hperm|]. split; [exact Hadded|]. split; [exact Hskipped|].
  split; [exact Hnodup|]. split; [exact Hnew|]. split; [|split; [|split]].
  - intros e He. apply Hall. rewrite <- Hperm. apply list_elem_of_In.
    apply list_elem_of_In, in_or_app. by right.
  - intros e.
    destruct (updateGitIgnore_run trim join repoPath (entries ++ [e]) s)
      as (added1 & skipped1 & Hloop1 & Hrun1).
    fold path in Hloop1, Hrun1. fold lines in Hloop1, Hrun1.
    rewrite addEntries_app, Hloop in Hloop1. cbn [addEntries] in Hloop1.
    rewrite (listIncludes_grown lines entries added' skipped' e Hperm Hall) in Hloop1.
    eexists. rewrite Hrun1. f_equal. f_equal.
    destruct (listIncludes (lines ++ entries) e); cbn [negb] in Hloop1;
      by injection Hloop1 as _ <- <-.
  - by intros ->.
  - intros Hne. destruct added' as [|a added']; [done|].
    apply lookup_written.
Qed.

(** X12. For entries that are trimmed, not empty and on one line each,
    [updateGitIgnore] settles: called again on the disk it has left, it
    adds nothing, skips every entry and leaves the disk as it is.  The
    statement asks of [trim] that trimming twice is trimming once, that the
    empty string stays empty and that trimming brings in no line break. *)
Theorem updateGitIgnore_settles
    (trim : string → string) (join : string → string → string)
    (repoPath : string) (entries : list string) (s : State Disk) :
  trimLaws trim →
  (∀ e, In e entries → plainEntry trim e) →
  ∃ first s1 s2,
    updateGitIgnore trim join repoPath entries s = (Normal first, s1) ∧
    updateGitIgnore trim join repoPath entries s1 = (Normal (mkUpdate [] entries), s2) ∧
    world s2 = world s1.
Proof.
  intros Hlaws Hplain.
  set (path := join repoPath ".gitignore").
  destruct (updateGitIgnore_run trim join repoPath entries s)
    as (added & skipped & Hloop & Hrun).
  destruct (addEntries_spec entries (linesOnDisk trim (world s) path) [] [])
    as (added' & skipped' & Hloop' & Hperm & _ & _ & Hall & _).
  fold path in Hloop, Hrun. rewrite Hloop in Hloop'. simpl in Hloop'.
  injection Hloop' as _ -> ->.
  assert (Hsecond : ∀ s1 : State Disk,
            linesOnDisk trim (world s1) path = linesOnDisk trim (world s) path ++ added' →
            ∃ s2, updateGitIgnore trim join repoPath entries s1
                    = (Normal (mkUpdate [] entries), s2) ∧
                  world s2 = world s1).
  { intros s1 Hlines.
    destruct (updateGitIgnore_run trim join repoPath entries s1)
      as (added2 & skipped2 & Hloop2 & Hrun2).
    fold path in Hloop2, Hrun2.
    rewrite addEntries_present in Hloop2 by (intros e He; rewrite Hlines; by apply Hall).
    simpl in Hloop2. injection Hloop2 as Hl <- <-.
    eexists. split; [exact Hrun2|]. reflexivity. }
  destruct added' as [|a added'].
  - destruct (Hsecond (mkState (world s)
                (calls s ++ ExistsSync path ::
                   match files (world s) !! path with
                   | Some _ => [ReadFileSync path]
                   | None => []
                   end))) as (s2 & H2 & Hw).
    { simpl. by rewrite app_nil_r. }
    eexists _, _, s2. split; [exact Hrun|]. split; [exact H2 | exact Hw].
  - set (newContent := joinLines (linesOnDisk trim (world s) path ++ a :: added')
                       +:+ String newline EmptyString) in *.
    destruct (Hsecond (mkState (written path newContent (world s))
                (calls s ++ ExistsSync path ::
                   match files (world s) !! path with
                   | Some _ => [ReadFileSync path]
                   | None => []
                   end ++ [WriteFileSync path newContent]))) as (s2 & H2 & Hw).
    { cbn [world]. unfold linesOnDisk at 1.
      destruct (lookup_written path newContent (world s)) as [m ->]. simpl.
      apply (readLines_joinLines trim Hlaws).
      - by destruct (linesOnDisk trim (world s) path).
      - intros l [Hl | Hl]%in_app_or.
        + by apply (readLines_clean trim Hlaws) in Hl.
        + destruct (Hplain l) as (Htrim & Hne & Hline).
          { rewrite <- Hperm. apply list_elem_of_In, list_elem_of_In, in_or_app. by left. }
          repeat split; [done | by destruct l | done]. }
    eexists _, _, s2. split; [exact Hrun|]. split; [exact H2 | exact Hw].
Qed.

(** *** [trim] on ASCII text keeps the laws *)

Lemma trimStart_head s :
  trimStart s = EmptyString ∨ ∃ c rest, trimStart s = String c rest ∧ isSpace c = false.
Proof.
  induction s as [|c s IH]; [by left|]. cbn [trimStart].
  destruct (isSpace c) eqn:E; [exact IH|]. right. by exists c, s.
Qed.

Lemma trimEnd_idempotent s : trimEnd (trimEnd s) = trimEnd s.
Proof.
  induction s as [|c s IH]; [done|]. cbn [trimEnd].
  destruct (trimEnd s) as [|k kept] eqn:E.
  - destruct (isSpace c) eqn:Hc; [done|]. cbn [trimEnd]. by rewrite Hc.
  - cbn [trimEnd] in *. by rewrite IH.
Qed.

Lemma trimStart_trimEnd_trimStart s :
  trimStart (trimEnd (trimStart s)) = trimEnd (trimStart s).
Proof.
  destruct (trimStart_head s) as [-> | (c & rest & -> & Hc)]; [done|].
  cbn [trimEnd]. destruct (trimEnd rest); rewrite ?Hc; cbn [trimStart]; by rewrite Hc.
Qed.

Lemma lacks_trimStart c s : lacks c s = true → lacks c (trimStart s) = true.
Proof.
  induction s as [|a s IH]; [done|]. cbn [trimStart]. intros H.
  destruct (isSpace a); [|exact H].
  cbn [lacks] in H. apply andb_true_iff in H as [_ H]. by apply IH.
Qed.

Lemma lacks_trimEnd c s : lacks c s = true → lacks c (trimEnd s) = true.
Proof.
  induction s as [|a s IH]; [done|]. cbn [trimEnd lacks].
  intros [Ha Hs]%andb_true_iff. specialize (IH Hs).
  destruct (trimEnd s) as [|k kept].
  - destruct (isSpace a); [done|]. cbn [lacks]. by rewrite Ha.
  - cbn [lacks] in *. by rewrite Ha, IH.
Qed.

Lemma asciiTrim_laws : trimLaws asciiTrim.
Proof.
  split; [|split].
  - intros s. unfold asciiTrim.
    by rewrite trimStart_trimEnd_trimStart, trimEnd_idempotent.
  - reflexivity.
  - intros s H. unfold asciiTrim. by apply lacks_trimEnd, lacks_trimStart.
Qed.

Lemma updateGitIgnore_settles_witness :
  ∃ first s1 s2,
    updateGitIgnore asciiTrim Mock.posix_join "/repo" gitignoreEntries
      Scenarios.emptyHooksDir = (Normal first, s1) ∧
    updateGitIgnore asciiTrim Mock.posix_join "/repo" gitignoreEntries s1
      = (Normal (mkUpdate [] gitignoreEntries), s2) ∧
    world s2 = world s1.
Proof.
  apply (updateGitIgnore_settles asciiTrim Mock.posix_join "/repo" gitignoreEntries
           Scenarios.emptyHooksDir asciiTrim_laws).
  intros e He. simpl in He.
  destruct He as [<- | [<- | [<- | []]]]; repeat split; discriminate.
Defined.

(** An entry with a leading blank is not read back as it was written: it is
    added on every run. *)
Example updateGitIgnore_unplain_entry :
  let update := updateGitIgnore asciiTrim Mock.posix_join "/repo" [" dist"] in
  fst (update Scenarios.emptyHooksDir) = Normal (mkUpdate [" dist"] []) ∧
  fst (update (snd (update Scenarios.emptyHooksDir))) = Normal (mkUpdate [" dist"] []).
Proof. split; vm_compute; reflexivity. Qed.

(** *** The choice of the directory *)

Lemma console_error_each {W} (repos : list string) (s : State W) :
  Platform.for_of repos (fun repo => console_error ("  - " +:+ repo)) s =
  (Normal tt,
   mkState (world s) (calls s ++ map (fun repo => ConsoleError ("  - " +:+ repo)) repos)).
Proof.
  revert s. induction repos as [|repo repos IH]; intros s; simpl.
  - unfold ret. rewrite app_nil_r. by destruct s.
  - unfold bind, console_error. simpl. rewrite IH. simpl. by rewrite <- app_assoc.
Qed.

(** X13. A repository that has a mapping keeps it: the option
    [--directory] is not looked at and nothing is printed.  For a repository
    without one, a non-empty [--directory] maps it to a directory that is
    already in the thoughts repository, or not at all: if the sanitised name
    is among the existing directories it is taken, and the line "Using
    existing" with its path is printed; if not, the command prints the
    error and the existing directories, one per line, and exits with code 1.
    The interactive branch runs in neither case.  An empty [--directory]
    counts as none: the interactive branch names the directory. *)
Theorem resolveMappedName_directory_option {W}
    (thoughtsRepo reposDir : string) (existingRepos : list string)
    (mappedName : option Mapping) (directory : string)
    (interactive : M W string) (s : State W) :
  let sanitizedDir := sanitizeDirectoryName directory in
  let run :=
    resolveMappedName thoughtsRepo reposDir existingRepos mappedName (Some directory)
      interactive s in
  (unmapped mappedName = false → run = (Normal mappedName, s)) ∧
  (unmapped mappedName = true → directory ≠ EmptyString →
   In sanitizedDir existingRepos →
   run =
   (Normal (Some (MappingName sanitizedDir)),
    mkState (world s)
      (calls s ++
       [ConsoleLog ("✓ Using existing: " +:+ thoughtsRepo +:+ "/" +:+ reposDir
                    +:+ "/" +:+ sanitizedDir)]))) ∧
  (unmapped mappedName = true → directory ≠ EmptyString →
   ¬ In sanitizedDir existingRepos →
   run =
   (Exits 1,
    mkState (world s)
      (calls s ++
       [ConsoleError ("Error: Directory " +:+ Platform.dquote +:+ sanitizedDir
                      +:+ Platform.dquote +:+ " not found in thoughts repository.");
        ConsoleError "In non-interactive mode (--directory), you must specify a directory";
        ConsoleError "name that already exists in the thoughts repository.";
        ConsoleError EmptyString;
        ConsoleError "Available directories:"] ++
       map (fun repo => ConsoleError ("  - " +:+ repo)) existingRepos))) ∧
  (unmapped mappedName = true → directory = EmptyString →
   run = (let* name := interactive in ret (Some (MappingName name))) s).
Proof.
  intros sanitizedDir run. subst run. unfold resolveMappedName.
  split; [by intros ->|]. split; [|split].
  - intros -> Hdir Hin. destruct directory as [|c rest]; [done|].
    fold sanitizedDir.
    rewrite (proj2 (listIncludes_In existingRepos sanitizedDir) Hin).
    reflexivity.
  - intros -> Hdir Hnot. destruct directory as [|c rest]; [done|].
    fold sanitizedDir.
    destruct (listIncludes existingRepos sanitizedDir) eqn:E;
      [by apply listIncludes_In in E|].
    cbn [negb when]. unfold bind at 1 2 3 4 5 6. unfold console_error at 1 2 3 4 5.
    cbn [world calls]. unfold bind. rewrite console_error_each.
    unfold process_exit. cbn [world calls]. by rewrite <- !app_assoc.
  - by intros -> ->.
Qed.

Lemma resolveMappedName_directory_option_witness :
  resolveMappedName "~/thoughts" "repos" ["humanlayer"; "my_app"] None (Some "my app")
    (fun s => (Normal "asked", s)) Mock.start
  = (Normal (Some (MappingName "my_app")),
     mkState tt [ConsoleLog "✓ Using existing: ~/thoughts/repos/my_app"]).
Proof.
  apply (resolveMappedName_directory_option "~/thoughts" "repos" ["humanlayer"; "my_app"]
           None "my app" (fun s => (Normal "asked", s)) Mock.start).
  - reflexivity.
  - discriminate.
  - simpl. right. by left.
Defined.

(** A repository that is mapped ignores the option, also when it names a
    directory that does not exist. *)
Example resolveMappedName_mapped :
  resolveMappedName "~/thoughts" "repos" ["humanlayer"] (Some (MappingName "humanlayer"))
    (Some "elsewhere") (fun s => (Normal "asked", s)) Mock.start
  = (Normal (Some (MappingName "humanlayer")), Mock.start).
Proof. reflexivity. Qed.

End InitMoreSpec.

(** ** symlink.ts, further *)

Module SymlinkInfoSpec.

Import Symlink SymlinkInfo SymlinkSpec.

(** X14. [getLinkTypeDescription] describes what [createDirectoryLink]
    does on the same platform: it speaks of junctions exactly when the link
    result has type junction, and of symbolic links exactly when it has
    type symlink, whether the link could be created or not.  There is a
    result whenever [fs.symlinkSync] returns or throws a value with a
    text. *)
Theorem getLinkTypeDescription_matches_link {W} (node : Node W)
    target linkPath (s : State W) :
  ∃ c s',
    createDirectoryLink node target linkPath s = (c, s') ∧
    (∀ r, c = Normal r →
       (getLinkTypeDescription node = "directory junctions (no admin required)"
        ↔ type r = junction) ∧
       (getLinkTypeDescription node = "symbolic links" ↔ type r = symlink)) ∧
    (readable (fst (fs_symlinkSync node target linkPath (requestedKind node) (world s))) →
       ∃ r, c = Normal r).
Proof.
  pose proof (createDirectoryLink_type node target linkPath s) as Htype.
  destruct (createDirectoryLink node target linkPath s) as [c s'] eqn:Hrun.
  exists c, s'. split; [reflexivity|]. split.
  - intros r ->. rewrite (Htype r eq_refl).
    unfold getLinkTypeDescription, expectedType.
    destruct (String.eqb (process_platform node) "win32"); split; split;
      intros H; try reflexivity; discriminate H.
  - intros Hreadable. rewrite createDirectoryLink_readable in Hrun by done.
    injection Hrun as <- _. eauto.
Qed.

Lemma getLinkTypeDescription_matches_link_witness :
  ∃ r s',
    createDirectoryLink (Mock.node (Scenarios.failing "win32" Scenarios.eperm))
      "/path/to/target" "/path/to/link" Mock.start = (Normal r, s') ∧
    type r = junction ∧
    getLinkTypeDescription (Mock.node (Scenarios.failing "win32" Scenarios.eperm))
      = "directory junctions (no admin required)".
Proof.
  destruct (getLinkTypeDescription_matches_link
              (Mock.node (Scenarios.failing "win32" Scenarios.eperm))
              "/path/to/target" "/path/to/link" Mock.start)
    as (c & s' & Hrun & Hdescribes & Hreturns).
  destruct Hreturns as [r ->]; [simpl; eauto|].
  exists r, s'. split; [exact Hrun|].
  destruct (Hdescribes r eq_refl) as [Hjunction _].
  split; [by apply Hjunction | reflexivity].
Defined.

End SymlinkInfoSpec.

(** ** [checkExistingSetup], further *)

Module InitStatusSpec.

Import Init InitMore Logs MonadFacts LogFacts.

Section AnyNode.
Context {W : Type} (node : Node W).

Lemma logs_existsAsSymbolicLink p : logs readCall (existsAsSymbolicLink node p).
Proof.
  unfold existsAsSymbolicLink. apply logs_bind; [by apply logs_call|].
  intros present. destruct present; [|apply logs_ret].
  apply logs_bind; [by apply logs_call | intros st; apply logs_ret].
Qed.

End AnyNode.

(** X15. [checkExistingSetup] only looks: whatever the file system
    answers, whether the function returns or an [lstat] raises, the calls
    it makes are [existsSync] and [lstatSync] calls and nothing else. *)
Theorem checkExistingSetup_reads_only {W} (node : Node W)
    (config : option ThoughtsConfig) (s : State W) :
  ∃ added,
    calls (snd (checkExistingSetup node config s)) = calls s ++ added ∧
    Forall readCall added.
Proof.
  revert s. change (logs readCall (checkExistingSetup node config)).
  unfold checkExistingSetup.
  apply logs_bind; [by apply logs_call | intros present].
  destruct present; simpl; [|apply logs_ret].
  apply logs_bind; [by apply logs_call | intros st].
  destruct (stIsDirectory st); simpl; [|apply logs_ret].
  apply logs_bind; [apply logs_existsAsSymbolicLink | intros hasOldLocal].
  destruct hasOldLocal; [apply logs_ret|].
  destruct config as [config|]; [|apply logs_ret].
  apply logs_bind; [apply logs_existsAsSymbolicLink | intros hasUser].
  apply logs_bind; [apply logs_existsAsSymbolicLink | intros hasShared].
  apply logs_bind; [apply logs_existsAsSymbolicLink | intros hasGlobal].
  destruct (negb hasUser || negb hasShared || negb hasGlobal); apply logs_ret.
Qed.

(** The statuses that [checkExistingSetup] can return. *)
Lemma checkExistingSetup_statuses {W} (node : Node W)
    (config : option ThoughtsConfig) (s s' : State W) (status : SetupStatus) :
  checkExistingSetup node config s = (Normal status, s') →
  status = mkSetupStatus false false None None ∨
  status = mkSetupStatus true false None
             (Some "thoughts exists but is not a directory") ∨
  status = mkSetupStatus true false (Some true)
             (Some "thoughts directory uses old structure (needs upgrade)") ∨
  (config = None ∧
   status = mkSetupStatus true false None
              (Some "thoughts directory exists but configuration is missing")) ∨
  (config ≠ None ∧
   status = mkSetupStatus true false None
              (Some "thoughts directory exists but symlinks are missing or broken")) ∨
  (config ≠ None ∧ status = mkSetupStatus true true None None).
Proof.
  unfold checkExistingSetup, existsAsSymbolicLink, bind, existsSync, lstatSync, call, ret.
  repeat
    (match goal with
     | |- context [fs_existsSync node ?p ?w] =>
         destruct (fs_existsSync node p w) as [[[]|?] ?]
     | |- context [fs_lstatSync node ?p ?w] =>
         destruct (fs_lstatSync node p w) as [[[[] []]|?] ?]
     | |- context [match config with _ => _ end] => destruct config
     end; cbn [negb orb world calls stIsDirectory stIsSymbolicLink]);
    intros [= <- <-]; tauto || (intuition congruence).
Qed.

(** X16. The statuses of [checkExistingSetup] keep their fields in step,
    whatever the file system answers: a valid status exists, is not an old
    structure, carries no message and is only given with a configuration; a
    status that exists and is not valid always carries a message; a status
    that does not exist carries none; and only an invalid status is marked
    as old structure. *)
Theorem checkExistingSetup_status_consistent {W} (node : Node W)
    (config : option ThoughtsConfig) (s s' : State W) (status : SetupStatus) :
  checkExistingSetup node config s = (Normal status, s') →
  (isValid status = true →
   exists_ status = true ∧ isOldStructure status = None ∧
   Init.message status = None ∧ config ≠ None) ∧
  (exists_ status = true → isValid status = false →
   ∃ m, Init.message status = Some m) ∧
  (exists_ status = false → isValid status = false ∧ Init.message status = None) ∧
  (isOldStructure status = Some true → isValid status = false ∧ exists_ status = true).
Proof.
  intros H. apply checkExistingSetup_statuses in H.
  destruct H as [-> | [-> | [-> | [[_ ->] | [[Hc ->] | [Hc ->]]]]]]; simpl;
    repeat split; intros; try discriminate; eauto.
Qed.

Lemma checkExistingSetup_status_consistent_witness :
  ∃ m,
    Init.message
      (mkSetupStatus true false (Some true)
         (Some "thoughts directory uses old structure (needs upgrade)")) = Some m.
Proof.
  assert (Hrun : checkExistingSetup (Mock.node Scenarios.oldStructureTree) None Mock.start
                 = (Normal (mkSetupStatus true false (Some true)
                              (Some "thoughts directory uses old structure (needs upgrade)")),
                    mkState tt [ExistsSync "/repo/thoughts"; LstatSync "/repo/thoughts";
                                ExistsSync "/repo/thoughts/local";
                                LstatSync "/repo/thoughts/local"])).
  { vm_compute. reflexivity. }
  destruct (checkExistingSetup_status_consistent _ _ _ _ _ Hrun) as (_ & Hmessage & _).
  apply Hmessage; reflexivity.
Defined.

(** X17. The first checks of [checkExistingSetup].  If [thoughts] does not
    exist, the status is [{exists:false, isValid:false}] after that one
    probe.  If it exists and [lstat] does not report a directory, a link to
    a directory included, the status is [{exists:true, isValid:false}] with
    the message that it is not a directory, and nothing below it is looked
    at. *)
Theorem checkExistingSetup_first_checks {W} (node : Node W)
    (config : option ThoughtsConfig) (s : State W) :
  let thoughtsDir := path_join node (process_cwd node) "thoughts" in
  (∀ w1,
     fs_existsSync node thoughtsDir (world s) = (Ok false, w1) →
     checkExistingSetup node config s =
     (Normal (mkSetupStatus false false None None),
      mkState w1 (calls s ++ [ExistsSync thoughtsDir]))) ∧
  (∀ w1 w2 st,
     fs_existsSync node thoughtsDir (world s) = (Ok true, w1) →
     fs_lstatSync node thoughtsDir w1 = (Ok st, w2) →
     stIsDirectory st = false →
     checkExistingSetup node config s =
     (Normal (mkSetupStatus true false None
                (Some "thoughts exists but is not a directory")),
      mkState w2 (calls s ++ [ExistsSync thoughtsDir; LstatSync thoughtsDir]))).
Proof.
  intros thoughtsDir. subst thoughtsDir. split.
  - intros w1 Hex. unfold checkExistingSetup, bind, existsSync, call, ret.
    by rewrite Hex.
  - intros w1 w2 st Hex Hst Hdir.
    unfold checkExistingSetup, bind, existsSync, lstatSync, call, ret.
    rewrite Hex. cbn [world calls negb]. rewrite Hst. cbn [world calls].
    rewrite Hdir. cbn [negb]. by rewrite <- app_assoc.
Qed.

Lemma checkExistingSetup_first_checks_witness :
  checkExistingSetup (Mock.node MoreScenarios.noThoughts) None Mock.start =
  (Normal (mkSetupStatus false false None None),
   mkState tt [ExistsSync "/repo/thoughts"]).
Proof.
  apply (checkExistingSetup_first_checks (Mock.node MoreScenarios.noThoughts) None
           Mock.start).
  reflexivity.
Defined.

(** X18. Without a configuration, and with [thoughts] a directory that is
    not in the old structure, [checkExistingSetup] reports that the
    configuration is missing, and does so before it looks for any of the
    three links: it has probed [thoughts] and [thoughts/local] only. *)
Theorem checkExistingSetup_missing_config {W} (node : Node W) (s : State W) :
  let thoughtsDir := path_join node (process_cwd node) "thoughts" in
  let localPath := path_join node thoughtsDir "local" in
  isDirectoryAt node (world s) thoughtsDir →
  noLinkAt node (world s) localPath →
  ∃ s' added,
    checkExistingSetup node None s =
      (Normal (mkSetupStatus true false None
                 (Some "thoughts directory exists but configuration is missing")), s') ∧
    calls s' = calls s ++ added ∧
    Forall (fun c => In c [ExistsSync thoughtsDir; LstatSync thoughtsDir;
                           ExistsSync localPath; LstatSync localPath]) added.
Proof.
  intros thoughtsDir localPath (Hex & st & Hst & Hdir) Hlocal.
  subst thoughtsDir localPath.
  unfold Init.answers in *.
  unfold checkExistingSetup, existsAsSymbolicLink, bind, existsSync, lstatSync, call, ret.
  rewrite Hex. cbn [world calls negb]. rewrite Hst. cbn [world calls]. rewrite Hdir.
  cbn [negb world calls].
  destruct Hlocal as [Hno | (Hyes & st' & Hst' & Hlink)]; unfold answers in *.
  - rewrite Hno. cbn [world calls]. eexists _, _. split; [reflexivity|].
    split; [cbn [calls]; rewrite <- !app_assoc; reflexivity|].
    repeat constructor; simpl; tauto.
  - rewrite Hyes. cbn [world calls]. rewrite Hst'. cbn [world calls]. rewrite Hlink.
    eexists _, _. split; [reflexivity|].
    split; [cbn [calls]; rewrite <- !app_assoc; reflexivity|].
    repeat constructor; simpl; tauto.
Qed.

Lemma checkExistingSetup_missing_config_witness :
  ∃ s' added,
    checkExistingSetup (Mock.node MoreScenarios.bareThoughts) None Mock.start =
      (Normal (mkSetupStatus true false None
                 (Some "thoughts directory exists but configuration is missing")), s') ∧
    calls s' = calls Mock.start ++ added ∧
    Forall (fun c => In c [ExistsSync "/repo/thoughts"; LstatSync "/repo/thoughts";
                           ExistsSync "/repo/thoughts/local";
                           LstatSync "/repo/thoughts/local"]) added.
Proof.
  apply (checkExistingSetup_missing_config (Mock.node MoreScenarios.bareThoughts)
           Mock.start).
  - split; [reflexivity|]. exists (mkStats true false). split; reflexivity.
  - left. reflexivity.
Defined.

End InitStatusSpec.
